(** * QuantaraAI: the market-data scheduler and the assistant harness

    A shallow embedding of
    - [apps/Playgound/QuantaraAI_scheduler/main.py]: provider selection,
      [seed], [update_ohlcv_data], [update_interval_data],
      [update_interval_record], [create_new_interval_record] and
      [update_indicators_data];
    - [apps/Playgound/Studio/main.py]: the plugin list of [test_chat].

    Polars frames are lists of rows whose numeric cells carry their dtype;
    the libraries the scheduler calls but does not define (the Float64
    arithmetic of Polars, the data provider, the repositories, the indicator
    routine, [get_interval_start_time]) are interfaces the development
    quantifies over. *)

From Stdlib Require Import ZArith PrimFloat Uint63.
From Stdlib Require OrderedTypeEx.
From stdpp Require Import gmap strings list sorting pretty.

Local Open Scope string_scope.
Local Open Scope Z_scope.

(** ** Polars frames *)

Module Polars.

(** Float64 columns: the carrier and the operations of Polars that
    [update_interval_record] evaluates on it. *)
Class Float64Ops := {
  f64 : Type;
  f64_of_int : Z → f64;          (* Int64 -> Float64 cast *)
  f64_add : f64 → f64 → f64;     (* Series + Series on Float64 *)
}.

Section frames.
Context {F : Float64Ops}.

(** A numeric cell together with the dtype of its column. *)
Inductive Cell :=
  | Int64 (z : Z)
  | Float64 (x : f64).



(** One record of an OHLCV frame: the keys of the dicts handed to
    [pl.from_records]. The timestamp is in epoch milliseconds. *)
Record Row := mkRow {
  timestamp : Z;
  symbol : string;
  open : Cell;
  high : Cell;
  low : Cell;
  close : Cell;
  volume : Cell;
}.

Definition as_f64 (c : Cell) : f64 :=
  match c with Int64 z => f64_of_int z | Float64 x => x end.

(** [pl.col(c).cast(pl.Float64)] on one cell. *)
Definition cast_Float64 (c : Cell) : Cell := Float64 (as_f64 c).

(** Int64 arithmetic wraps around at 64 bits. *)
Definition wrap64 (z : Z) : Z := (z + 2 ^ 63) mod 2 ^ 64 - 2 ^ 63.

(** The sum of two cells: two Int64 cells stay Int64, any other pair is
    added in the supertype Float64. *)
Definition series_add (a b : Cell) : Cell :=
  match a, b with
  | Int64 x, Int64 y => Int64 (wrap64 (x + y))
  | _, _ => Float64 (f64_add (as_f64 a) (as_f64 b))
  end.

(** A lazy expression of Polars. [pl.max_horizontal] and
    [pl.min_horizontal] return one; a Series among their arguments is
    parsed as a literal. Nothing here evaluates an expression. *)
#[warnings="-register-all"]
Inductive Expr :=
  | Lit (values : list Cell)
  | MaxHorizontal (exprs : list Expr)
  | MinHorizontal (exprs : list Expr).

Definition pl_max_horizontal (a b : list Cell) : Expr :=
  MaxHorizontal [Lit a; Lit b].
Definition pl_min_horizontal (a b : list Cell) : Expr :=
  MinHorizontal [Lit a; Lit b].

(** A value of the dict handed to [pl.DataFrame]: a Series or an
    expression. *)
Inductive Column (A : Type) :=
  | Series (values : list A)
  | Expression (e : Expr).

(** The dict of the seven columns of an OHLCV frame. *)
Record FrameDict := mkFrameDict {
  d_timestamp : Column Z;
  d_symbol : Column string;
  d_open : Column Cell;
  d_high : Column Cell;
  d_low : Column Cell;
  d_close : Column Cell;
  d_volume : Column Cell;
}.

End frames.

Arguments Series {F A} values.
Arguments Expression {F A} e.

(** A frame is the list of its rows. *)
Abbreviation DataFrame := (list Row).

(** The IEEE-754 binary64 numbers of the kernel as an instance. The cast
    of an Int64 goes through the 63-bit integers of the kernel, which hold
    every magnitude but that of the least Int64, [- 2 ^ 63]; that one is
    [2 ^ 62] doubled. *)
Definition prim_of_int (z : Z) : float :=
  if z <? 0 then
    if z =? - 2 ^ 63
    then PrimFloat.opp (PrimFloat.mul (PrimFloat.of_uint63 (Uint63.of_Z (2 ^ 62))) 2)
    else PrimFloat.opp (PrimFloat.of_uint63 (Uint63.of_Z (- z)))
  else PrimFloat.of_uint63 (Uint63.of_Z z).

#[export] Instance binary64 : Float64Ops := {|
  f64 := float;
  f64_of_int := prim_of_int;
  f64_add := PrimFloat.add;
|}.

End Polars.

Export Polars.

(** ** Exceptions, results and the scheduler's monad *)

Inductive Exception :=
  | IndexError                 (* [raw_data[0]] on an empty list *)
  | ShapeError                 (* Polars: columns of unequal height *)
  | KeyError (key : string)    (* a missing key of a mapping *)
  | TypeError (msg : string)
  | InvalidOperationError (msg : string)   (* Polars *)
  | External (msg : string).   (* raised inside a provider, a repository or
                                  the indicator routine *)

Inductive Result (A : Type) :=
  | Ok (a : A)
  | Raise (e : Exception).
Arguments Ok {A} a.
Arguments Raise {A} e.

(** [str(e)], as the f-string of the error log formats it. The text of a
    [KeyError] is the [repr] of its key: the key between single quotes, for
    a key that holds no quote, backslash or control character. The text
    Polars gives a [ShapeError] names the columns and their heights; the
    short text here stands for it. *)
Definition exception_message (e : Exception) : string :=
  match e with
  | IndexError => "list index out of range"
  | ShapeError => "shape error"
  | KeyError k => "'" +:+ k +:+ "'"
  | TypeError msg => msg
  | InvalidOperationError msg => msg
  | External msg => msg
  end.

Inductive Level := INFO | ERROR.

(** One call of [repository.update]: the table and the predicate string. *)
Record Upsert := mkUpsert { upsert_table : string; upsert_predicate : string }.

(** What a run can change: the store behind the repositories, the log, and
    the journal of the upserts issued so far. *)
Record World (Store : Type) := mkWorld {
  db : Store;
  log : list (Level * string);
  journal : list Upsert;
}.
Arguments mkWorld {Store} db log journal.
Arguments db {Store} w.
Arguments log {Store} w.
Arguments journal {Store} w.

(** A coroutine of the scheduler: it runs in a world and returns or raises,
    leaving the world as it was at that point. *)
Definition M (Store A : Type) : Type := World Store → Result A * World Store.

Section monad.
Context {Store : Type}.

Definition ret {A} (a : A) : M Store A := λ w, (Ok a, w).

Definition bind {A B} (m : M Store A) (k : A → M Store B) : M Store B :=
  λ w, match m w with
       | (Ok a, w') => k a w'
       | (Raise e, w') => (Raise e, w')
       end.

(** A pure computation that may raise, run inside a coroutine. *)
Definition lift {A} (r : Result A) : M Store A := λ w, (r, w).

(** [try: body except Exception as e: handler e]. *)
Definition try_except (body : M Store unit) (handler : Exception → M Store unit)
  : M Store unit :=
  λ w, match body w with
       | (Ok a, w') => (Ok a, w')
       | (Raise e, w') => handler e w'
       end.

(** [for x in l: body x]. *)
Fixpoint for_ {A} (l : list A) (body : A → M Store unit) : M Store unit :=
  match l with
  | [] => ret tt
  | x :: l' => bind (body x) (λ _, for_ l' body)
  end.

Definition logger (lvl : Level) (msg : string) : M Store unit :=
  λ w, (Ok tt, mkWorld (db w) (log w ++ [(lvl, msg)])%list (journal w)).

End monad.

#[export] Instance M_ret {Store} : MRet (M Store) := λ A, ret.
#[export] Instance M_bind {Store} : MBind (M Store) := λ A B k m, bind m k.

(** ** The scheduler: apps/Playgound/QuantaraAI_scheduler/main.py *)

Module Scheduler.

(** The three classes [libs.data_providers] exports. *)
Inductive ProviderClass :=
  | BinanceCoinPriceDataProvider
  | CoinPaprikaCoinPriceDataProvider
  | DummyCoinPriceDataProvider.

(** The import at the top of the module, as a function of
    [os.environ.get("DATA_PROVIDER")] ([None] when the variable is unset). *)
Definition select_provider (DATA_PROVIDER : option string) : ProviderClass :=
  if decide (DATA_PROVIDER = Some "binance")
  then BinanceCoinPriceDataProvider
  else if decide (DATA_PROVIDER = Some "coinpaprika")
  then CoinPaprikaCoinPriceDataProvider
  else DummyCoinPriceDataProvider.

Definition interval_names : list string := ["raw"; "1h"; "4h"; "1d"].

Definition COINS : list string :=
  [ "BTC"; "ETH"; "SOL"; "NEIRO";
    "SUI"; "PEPE"; "OG"; "WIF"; "FTT"; "BNB"; "XRP"; "SEI"; "DOGE"; "TAO";
    "FET"; "SANTOS"; "WLD"; "SHIB"; "APT"; "FTM"; "EIGEN"; "PEOPLE"; "SAGA";
    "RUNE"; "NEAR"; "1000SATS"; "BONK"; "FLOKI"; "NOT"; "DOGS"; "1MBABYDOGE";
    "CFX"; "TURBO"; "AVAX"; "BOME"; "WING"; "LAZIO"; "CVC"; "ENA"; "TRX";
    "ORDI"; "ARB"; "HMSTR"; "LINK"; "EUR"; "CATI"; "BNX"; "RENDER"; "TON";
    "TIA"; "ADA"; "AAVE"; "ALPINE"; "INJ"; "ZRO"; "ZK"; "USTC"; "MKR"; "LTC";
    "PORTO"; "DIA"; "ARKM"; "PENDLE"; "ICP"; "ALT"; "IO"; "FIL"; "GALA"; "OP";
    "JUP"; "BCH"; "STX"; "ASR"; "UNI"; "CELO"; "BANANA"; "W"; "POL"; "TROY";
    "LUNC"; "ATM"; "MANTA"; "DYDX"; "CRV"; "STRK"; "DOT"; "FORTH"; "LUNA";
    "ACH"; "CHZ"; "ATOM"; "YGG"; "PHB"; "AR"; "JTO"; "LDO"; "HBAR"; "SUPER";
    "FIDA"; "MEME"; "CKB"; "OMNI"; "PYTH"; "PSG"; "DEGO"; "OM"; "BEAMX"; "BB";
    "EURI"; "JASMY"; "RAY"; "SUN"; "PIXEL"; "BLUR"; "ROSE"; "GRT"; "TRB";
    "WOO"; "IMX"; "SSV"; "AI" ].

(** The two predicate strings the module hands to [repository.update]. *)
Definition on_timestamp : string := "s.timestamp == t.timestamp".
Definition on_timestamp_and_symbol : string :=
  "s.timestamp == t.timestamp AND s.symbol == t.symbol".

Definition ohlcv_table (interval_name : string) : string := "ohlcv_" +:+ interval_name.
Definition indicators_table (interval_name : string) : string :=
  "indicators_" +:+ interval_name.

(** *** What the module imports and does not define *)

(** [libs.data_providers]: the environment variable read at import time and
    the two methods of the provider classes, each returning the rows and the
    provider's metadata. *)
Class DataProviders {F : Float64Ops} := {
  environ_DATA_PROVIDER : option string;
  Metadata : Type;
  get_current_ohlcv :
    ProviderClass → list string → string → Result (list Row * Metadata);
  get_historical_ohlcv :
    ProviderClass → list string → string → Z → Result (list Row * Metadata);
}.

(** [libs.internals.indicators]: one symbol's series to its indicator rows. *)
Class IndicatorLib {F : Float64Ops} := {
  IndicatorRow : Type;
  indicator_timestamp : IndicatorRow → Z;
  indicator_symbol : IndicatorRow → string;
  calculate_ta_indicators : DataFrame → Result (list IndicatorRow);
}.

(** [libs.repositories]: a repository is named by its table; [get_all] and
    [get_by_timestamp] return a frame or [None]. *)
Class Repositories {F : Float64Ops} {I : IndicatorLib} := {
  Store : Type;
  ohlcv_get_all : string → Store → Result (option DataFrame);
  ohlcv_get_by_timestamp : string → Z → Store → Result (option DataFrame);
  ohlcv_update : string → DataFrame → string → Store → Result Store;
  indicators_update : string → list IndicatorRow → string → Store → Result Store;
}.

(** [datetime] and the helper [get_interval_start_time], which the module
    calls without defining or importing it. [epoch_ms t] stands for
    [t.timestamp() * 1000]. *)
Class Calendar := {
  datetime : Type;
  fromtimestamp : Z → datetime;
  utcnow_isoformat : string;
  get_interval_start_time : datetime → string → datetime;
  epoch_ms : datetime → Z;
}.

Section scheduler.
Context {F : Float64Ops} {P : DataProviders} {I : IndicatorLib}
        {R : Repositories} {C : Calendar}.

Definition DataProvider : ProviderClass := select_provider environ_DATA_PROVIDER.

(** *** Repository calls *)

Definition get_all (table_name : string) : M Store (option DataFrame) :=
  λ w, (ohlcv_get_all table_name (db w), w).

Definition get_by_timestamp (table_name : string) (ts : Z) : M Store (option DataFrame) :=
  λ w, (ohlcv_get_by_timestamp table_name ts (db w), w).

(** [OhlcvRepository(table_name).update(df, predicate)]: the call is entered
    in the journal, then the repository acts on the store. *)
Definition repository_update (table_name : string) (df : DataFrame)
    (predicate : string) : M Store unit :=
  λ w, let j := (journal w ++ [mkUpsert table_name predicate])%list in
       match ohlcv_update table_name df predicate (db w) with
       | Ok s => (Ok tt, mkWorld s (log w) j)
       | Raise e => (Raise e, mkWorld (db w) (log w) j)
       end.

Definition indicators_repository_update (table_name : string)
    (rows : list IndicatorRow) (predicate : string) : M Store unit :=
  λ w, let j := (journal w ++ [mkUpsert table_name predicate])%list in
       match indicators_update table_name rows predicate (db w) with
       | Ok s => (Ok tt, mkWorld s (log w) j)
       | Raise e => (Raise e, mkWorld (db w) (log w) j)
       end.

(** *** update_interval_record *)

(** The four [cast(pl.Float64)] of one [with_columns]: close, high, low and
    volume. *)
Definition with_columns_cast (df : DataFrame) : DataFrame :=
  (λ r, mkRow (timestamp r) (symbol r) (open r)
              (cast_Float64 (high r)) (cast_Float64 (low r))
              (cast_Float64 (close r)) (cast_Float64 (volume r))) <$> df.

(** The text of the error of [a + b] on Series of lengths [m] and [n]. *)
Definition different_lengths_message (m n : nat) : string :=
  "cannot do arithmetic operation on series of different lengths: got "
  +:+ pretty m +:+ " and " +:+ pretty n.

(** [a + b] on two Series: cell by cell when the lengths agree, a Series
    of one cell is broadcast to the length of the other, and any other pair
    of lengths raises. *)
Definition series_plus (a b : list Cell) : Result (list Cell) :=
  if decide (length a = length b) then Ok (zip_with series_add a b)
  else
    match a, b with
    | [x], _ => Ok (series_add x <$> b)
    | _, [y] => Ok ((λ x, series_add x y) <$> a)
    | _, _ =>
        Raise (InvalidOperationError
                 (different_lengths_message (length a) (length b)))
    end.

(** The text of the [TypeError] of [pl.DataFrame] on a dict that holds an
    expression. *)
Definition expr_in_constructor_message : string :=
  "passing Expr objects to the DataFrame constructor is not supported

Hint: Try evaluating the expression first using `select`, or if you meant to create an Object column containing expressions, pass a list of Expr objects instead.".

Definition rows_of_columns (ts : list Z) (ss : list string)
    (os hs ls cs vs : list Cell) : DataFrame :=
  let next {A B} (fs : list (A → B)) (xs : list A) : list B :=
    zip_with (λ f x, f x) fs xs in
  next (next (next (next (next (zip_with mkRow ts ss) os) hs) ls) cs) vs.

(** [pl.DataFrame(data)] on the dict of the seven columns: an expression
    among the values is refused with [TypeError] before anything else is
    looked at; Series of unequal length are refused with [ShapeError];
    Series of equal length become the rows of the frame. *)
Definition pl_DataFrame (data : FrameDict) : Result DataFrame :=
  match d_timestamp data, d_symbol data, d_open data, d_high data,
        d_low data, d_close data, d_volume data with
  | Series ts, Series ss, Series os, Series hs, Series ls, Series cs,
    Series vs =>
      if decide (length ss = length ts ∧ length os = length ts
                 ∧ length hs = length ts ∧ length ls = length ts
                 ∧ length cs = length ts ∧ length vs = length ts)
      then Ok (rows_of_columns ts ss os hs ls cs vs)
      else Raise ShapeError
  | _, _, _, _, _, _, _ => Raise (TypeError expr_in_constructor_message)
  end.

(** The two [with_columns] and the dict literal of [update_interval_record],
    its values evaluated in the order they are written: five Series taken
    or computed from the cast frames, and the two expressions that
    [pl.max_horizontal] and [pl.min_horizontal] return. *)
Definition interval_record_dict (existing_df new_data_df : DataFrame)
  : Result FrameDict :=
  let existing_df := with_columns_cast existing_df in
  let new_data_df := with_columns_cast new_data_df in
  let d_timestamp := Series (timestamp <$> existing_df) in
  let d_symbol := Series (symbol <$> existing_df) in
  let d_open := Series (open <$> existing_df) in
  let d_high :=
    Expression (pl_max_horizontal (high <$> existing_df) (high <$> new_data_df)) in
  let d_low :=
    Expression (pl_min_horizontal (low <$> existing_df) (low <$> new_data_df)) in
  let d_close := Series (close <$> new_data_df) in
  match series_plus (volume <$> existing_df) (volume <$> new_data_df) with
  | Ok sum =>
      Ok (mkFrameDict d_timestamp d_symbol d_open d_high d_low d_close
            (Series sum))
  | Raise e => Raise e
  end.

(** The dict goes to [pl.DataFrame]. *)
Definition update_interval_record (existing_df new_data_df : DataFrame)
  : Result DataFrame :=
  match interval_record_dict existing_df new_data_df with
  | Ok data => pl_DataFrame data
  | Raise e => Raise e
  end.

(** *** create_new_interval_record *)

Definition create_new_interval_record (interval_start_time : datetime)
    (interval_name : string) (new_data_df : DataFrame) : DataFrame :=
  (λ n, {| timestamp := epoch_ms interval_start_time;
           symbol := symbol n;
           open := open n;
           high := high n;
           low := low n;
           close := close n;
           volume := volume n |}) <$> new_data_df.

(** *** update_interval_data *)

Definition update_interval_data (repository : string) (interval_name : string)
    (new_data_df : DataFrame) (current_time : datetime) : M Store unit :=
  let interval_start_time := get_interval_start_time current_time interval_name in
  existing_df ← get_by_timestamp repository (epoch_ms interval_start_time);
  updated_df ←
    match existing_df with
    | Some existing_df =>
        if decide (0 < length existing_df)%nat
        then lift (update_interval_record existing_df new_data_df)
        else ret (create_new_interval_record interval_start_time interval_name
                    new_data_df)
    | None =>
        ret (create_new_interval_record interval_start_time interval_name
               new_data_df)
    end;
  repository_update repository updated_df on_timestamp.

(** *** update_ohlcv_data *)

(** [pl.from_records]: the rows become the frame. *)
Definition from_records (raw_data : list Row) : DataFrame := raw_data.

(** [raw_data[0]]. *)
Definition first_row (raw_data : list Row) : Result Row :=
  match raw_data with
  | [] => Raise IndexError
  | r :: _ => Ok r
  end.

Definition update_ohlcv_data : M Store unit :=
  let data_provider := DataProvider in
  fetched ← lift (get_current_ohlcv data_provider COINS "30m");
  let raw_data := fetched.1 in
  r0 ← lift (first_row raw_data);
  let current_time := fromtimestamp (timestamp r0 `div` 1000) in
  let raw_repository := ohlcv_table "raw" in
  let df := from_records raw_data in
  repository_update raw_repository df on_timestamp;;
  for_ (tail interval_names) (λ interval_name,
    let interval_repository := ohlcv_table interval_name in
    update_interval_data interval_repository interval_name df current_time).

(** *** update_indicators_data *)

(** [df.sort(by=["symbol", "timestamp"])]: strings compare byte by byte. *)
Definition row_leb (a b : Row) : bool :=
  match String.compare (symbol a) (symbol b) with
  | Lt => true
  | Eq => timestamp a <=? timestamp b
  | Gt => false
  end.

Definition row_le (a b : Row) : Prop := row_leb a b = true.

#[local] Instance row_le_dec a b : Decision (row_le a b) :=
  decide (row_leb a b = true).

Definition sort_by_symbol_timestamp (df : DataFrame) : DataFrame :=
  merge_sort row_le df.

(** [df["symbol"].unique()]: each symbol once. Polars promises no order for
    the result; the statements on the loop below hold for every list of
    symbols. *)
Definition unique (symbols : list string) : list string := remove_dups symbols.

(** The body of [for symbol in df["symbol"].unique()]. *)
Definition indicators_for_symbol (indicators_repository : string)
    (df : DataFrame) (symbol_ : string) : M Store unit :=
  let symbol_df := filter (λ r, symbol r = symbol_) df in
  if decide (length symbol_df = 0%nat) then ret tt
  else
    try_except
      (indicators ← lift (calculate_ta_indicators symbol_df);
       indicators_repository_update indicators_repository indicators
         on_timestamp_and_symbol)
      (λ e, logger ERROR
              ("Error calculating indicators for " +:+ symbol_ +:+ ": "
               +:+ exception_message e)).

(** The body of [for interval_name in interval_names]. *)
Definition update_indicators_interval (interval_name : string) : M Store unit :=
  logger INFO ("Updating indicators for " +:+ interval_name +:+ " interval");;
  let ohlcv_repository := ohlcv_table interval_name in
  let indicators_repository := indicators_table interval_name in
  df ← get_all ohlcv_repository;
  match df with
  | None => ret tt
  | Some df =>
      if decide (length df = 0%nat) then ret tt
      else
        let df := sort_by_symbol_timestamp df in
        for_ (unique (symbol <$> df)) (indicators_for_symbol indicators_repository df)
  end.

Definition update_indicators_data : M Store unit :=
  for_ interval_names update_indicators_interval.

(** *** seed *)

(** The body of [for interval_name in interval_names] in [seed]. *)
Definition seed_interval (data_provider : ProviderClass) (interval_name : string)
  : M Store unit :=
  logger INFO ("Seeding " +:+ interval_name +:+ " interval");;
  let interval := if decide (interval_name = "raw") then "30m" else interval_name in
  fetched ← lift (get_historical_ohlcv data_provider COINS interval
                    (if decide (interval_name = "raw") then 1000 else 100));
  let raw_data := fetched.1 in
  match raw_data with
  | [] => ret tt
  | _ :: _ =>
      let df := from_records raw_data in
      let repository := ohlcv_table interval_name in
      repository_update repository df on_timestamp
  end.

Definition seed : M Store unit :=
  let data_provider := DataProvider in
  for_ interval_names (seed_interval data_provider);;
  update_indicators_data.

(** *** data_ingestion_job, process *)

Definition data_ingestion_job : M Store unit :=
  logger INFO ("

Initiating celestial data collection. " +:+ utcnow_isoformat +:+ "

");;
  update_ohlcv_data;;
  update_indicators_data.

Definition process : M Store unit :=
  seed;;
  data_ingestion_job.

End scheduler.

End Scheduler.

Export Scheduler.

(** ** The harness: apps/Playgound/Studio/main.py *)

Module Studio.

Definition plugin_names : list string :=
  ["wallet"; "QuantaraAI"; "coin-technical-analyzer"; "coin-technical-chart-searcher"].

(** What [test_chat] imports: plugin classes and their instances with the
    [exclude] flag, the model, the checkpoint saver and the graph builder.
    The registry handed to [test_chat] is the one [_preload_modules] has
    filled. The calls of this library are taken to return: what is
    followed here is the lookup of the slugs and the filter on the flag,
    not a failure of [_preload_modules], of the constructor of a plugin, of
    [get_model], of the saver or of [create_graph]. *)
Class GraphLib := {
  PluginClass : Type;
  Plugin : Type;
  instantiate : PluginClass → Plugin;
  exclude : Plugin → bool;
  Model : Type;
  get_model : Model;
  Saver : Type;
  memory_saver : Saver;
  Graph : Type;
  create_graph : Model → list Plugin → Saver → Graph;
}.

Section harness.
Context {G : GraphLib}.

(** [[registry.plugins[plugin_name]() for plugin_name in plugin_names]]: a
    slug the registry does not hold raises [KeyError]. *)
Fixpoint instantiate_plugins (plugins : gmap string PluginClass)
    (names : list string) : Result (list Plugin) :=
  match names with
  | [] => Ok []
  | plugin_name :: names' =>
      match plugins !! plugin_name with
      | None => Raise (KeyError plugin_name)
      | Some cls =>
          match instantiate_plugins plugins names' with
          | Ok ps => Ok (instantiate cls :: ps)
          | Raise e => Raise e
          end
      end
  end.

(** [[p for p in plugins if p.exclude is False]]. *)
Definition keep_included (plugins : list Plugin) : list Plugin :=
  filter (λ p, exclude p = false) plugins.

Definition test_chat (registry_plugins : gmap string PluginClass) : Result Graph :=
  match instantiate_plugins registry_plugins plugin_names with
  | Raise e => Raise e
  | Ok plugins =>
      let plugins := keep_included plugins in
      let llm := get_model in
      Ok (create_graph llm plugins memory_saver)
  end.

End harness.

End Studio.

(** ** The repositories, from their contract *)

Module SpecRepository.

(** Modelled from the spec: the repositories of [libs.repositories] are not
    among the sources. Their contract is [get_all() -> table or empty],
    [get_by_timestamp(ms) -> table or empty] and [update(table, predicate)],
    "an upsert keyed by the given match predicate (observed predicates:
    match on timestamp alone, or on timestamp and symbol together)". *)
Inductive MatchKey := ByTimestamp | ByTimestampAndSymbol.

Definition parse_predicate (predicate : string) : option MatchKey :=
  if decide (predicate = on_timestamp) then Some ByTimestamp
  else if decide (predicate = on_timestamp_and_symbol) then Some ByTimestampAndSymbol
  else None.

Section upsert.
Context {Rec : Type} (ts : Rec → Z) (sym : Rec → string).

(** Whether source record [s] and target record [t] match under the key. *)
Definition matched (k : MatchKey) (s t : Rec) : Prop :=
  match k with
  | ByTimestamp => ts s = ts t
  | ByTimestampAndSymbol => ts s = ts t ∧ sym s = sym t
  end.

#[local] Instance matched_dec k s t : Decision (matched k s t).
Proof. destruct k; simpl; apply _. Defined.

(** Modelled from the spec: [repository.update] of [libs.repositories],
    which is not among the sources. It is "an insert-or-update operation
    keyed by a match predicate": the batch is upserted together, every
    record of the table that a record of the batch matches is superseded,
    and every record of the batch is in the table afterwards. *)
Definition upsert (k : MatchKey) (source target : list Rec) : list Rec :=
  filter (λ t, ¬ Exists (λ s, matched k s t) source) target ++ source.

End upsert.

Section store.
Context {F : Float64Ops} {I : IndicatorLib}.

Record Tables := mkTables {
  ohlcv_tables : gmap string DataFrame;
  indicator_tables : gmap string (list IndicatorRow);
}.

(** Modelled from the spec: [get_all() -> table or empty]. *)
Definition spec_get_all (table_name : string) (st : Tables)
  : Result (option DataFrame) :=
  Ok (ohlcv_tables st !! table_name).

(** Modelled from the spec: [get_by_timestamp(ms) -> table or empty], the
    records of the table with that timestamp. *)
Definition spec_get_by_timestamp (table_name : string) (ms : Z) (st : Tables)
  : Result (option DataFrame) :=
  Ok (filter (λ r, timestamp r = ms) <$> ohlcv_tables st !! table_name).

(** Modelled from the spec: [update(table, predicate) -> void], an upsert
    keyed by the predicate; a table is created by its first upsert. *)
Definition spec_ohlcv_update (table_name : string) (df : DataFrame)
    (predicate : string) (st : Tables) : Result Tables :=
  match parse_predicate predicate with
  | None => Raise (External "unsupported predicate")
  | Some k =>
      let old := default [] (ohlcv_tables st !! table_name) in
      Ok (mkTables (<[table_name := upsert timestamp symbol k df old]> (ohlcv_tables st))
                   (indicator_tables st))
  end.

(** Modelled from the spec: the same upsert on an indicator table. *)
Definition spec_indicators_update (table_name : string)
    (rows : list IndicatorRow) (predicate : string) (st : Tables) : Result Tables :=
  match parse_predicate predicate with
  | None => Raise (External "unsupported predicate")
  | Some k =>
      let old := default [] (indicator_tables st !! table_name) in
      Ok (mkTables (ohlcv_tables st)
            (<[table_name := upsert indicator_timestamp indicator_symbol k rows old]>
               (indicator_tables st)))
  end.

Definition spec_repositories : Repositories := {|
  Store := Tables;
  ohlcv_get_all := spec_get_all;
  ohlcv_get_by_timestamp := spec_get_by_timestamp;
  ohlcv_update := spec_ohlcv_update;
  indicators_update := spec_indicators_update;
|}.

(** At most one record per (timestamp, symbol) pair. *)
Definition record_key (r : Row) : Z * string := (timestamp r, symbol r).

Definition unique_records (df : DataFrame) : Prop := NoDup (record_key <$> df).

Definition store_unique (st : Tables) : Prop :=
  ∀ table_name df, ohlcv_tables st !! table_name = Some df → unique_records df.

End store.

End SpecRepository.

(** ** Concrete libraries and inputs, for running the model *)

Module Sample.

Import SpecRepository.

(** Modelled from the spec: [get_interval_start_time], which is not among
    the sources: "floor to the start of the hour / 4-hour block / calendar
    day, UTC". A datetime is its epoch second; any other interval name
    leaves the time as it is. *)
Definition interval_seconds (interval_name : string) : Z :=
  if decide (interval_name = "1h") then 3600
  else if decide (interval_name = "4h") then 14400
  else if decide (interval_name = "1d") then 86400
  else 1.

Definition floor_to_interval (t : Z) (interval_name : string) : Z :=
  t `div` interval_seconds interval_name * interval_seconds interval_name.

Definition utc_calendar : Calendar := {|
  datetime := Z;
  fromtimestamp := λ s, s;
  utcnow_isoformat := "2024-11-03T10:30:00+00:00";
  get_interval_start_time := floor_to_interval;
  epoch_ms := λ t, t * 1000;
|}.

(** A provider that answers every current fetch with the same rows and
    every historical fetch with the rows of the interval asked for. *)
Definition fixed_provider (var : option string) (current : list Row)
    (historical : string → list Row) : DataProviders := {|
  environ_DATA_PROVIDER := var;
  Metadata := unit;
  get_current_ohlcv := λ _ _ _, Ok (current, tt);
  get_historical_ohlcv := λ _ _ interval _, Ok (historical interval, tt);
|}.

(** An indicator routine that fails on the series of one symbol and returns
    one indicator row (timestamp, symbol, close) per record otherwise. *)
Definition failing_on (bad : string) : IndicatorLib := {|
  IndicatorRow := Z * string * Cell;
  indicator_timestamp := λ r, r.1.1;
  indicator_symbol := λ r, r.1.2;
  calculate_ta_indicators := λ df,
    if decide (Exists (λ r, symbol r = bad) df)
    then Raise (External "not enough candles")
    else Ok ((λ r, (timestamp r, symbol r, close r)) <$> df);
|}.

Definition candle (ts : Z) (sym : string) (o h l c v : float) : Row :=
  mkRow ts sym (Float64 o) (Float64 h) (Float64 l) (Float64 c) (Float64 v).

(** The bucket and the observation of the interval-merge example. *)
Definition bucket : Row := candle 1730628000000 "BTC" 10 12 9 11.5 100.
Definition observation : Row := candle 1730629800000 "BTC" 11.5 13 8 11 50.


(** Two frames that list the same two symbols in opposite orders. *)
Definition existing_btc_eth : DataFrame :=
  [ candle 1730628000000 "BTC" 100 110 90 105 1;
    candle 1730628000000 "ETH" 10 11 9 10.5 2 ].
Definition new_eth_btc : DataFrame :=
  [ candle 1730629800000 "ETH" 10.5 12 10 11 3;
    candle 1730629800000 "BTC" 105 120 100 115 4 ].
Definition new_btc_eth : DataFrame :=
  [ candle 1730629800000 "BTC" 105 120 100 115 4;
    candle 1730629800000 "ETH" 10.5 12 10 11 3 ].

(** A harness library whose plugins are a slug and the exclude flag, and
    whose graph is the list of the slugs it was built from. *)
Definition slug_plugins : Studio.GraphLib := {|
  Studio.PluginClass := string * bool;
  Studio.Plugin := string * bool;
  Studio.instantiate := λ cls, cls;
  Studio.exclude := snd;
  Studio.Model := unit;
  Studio.get_model := tt;
  Studio.Saver := unit;
  Studio.memory_saver := tt;
  Studio.Graph := list string;
  Studio.create_graph := λ _ plugins _, fst <$> plugins;
|}.

Definition registry_plugins : gmap string (string * bool) :=
  list_to_map
    [ ("wallet", ("wallet", false));
      ("QuantaraAI", ("QuantaraAI", true));
      ("coin-technical-analyzer", ("coin-technical-analyzer", false));
      ("coin-technical-chart-searcher", ("coin-technical-chart-searcher", false));
      ("solana-bonk-educator", ("solana-bonk-educator", false)) ].

Definition indicators : IndicatorLib := failing_on "ETH".

Definition empty_store : Tables (I := indicators) := mkTables ∅ ∅.

Definition empty_world : World (Tables (I := indicators)) :=
  mkWorld empty_store [] [].

(** Providers: no row at all; one current candle and no history; two
    symbols, current and historical; two symbols with no 1h history. *)
Definition feed_none : DataProviders := fixed_provider None [] (λ _, []).
Definition feed_one : DataProviders :=
  fixed_provider None [observation] (λ _, []).
Definition feed_two : DataProviders :=
  fixed_provider None new_btc_eth (λ _, existing_btc_eth).
Definition feed_gap : DataProviders :=
  fixed_provider None new_btc_eth
    (λ interval, if decide (interval = "1h") then [] else existing_btc_eth).

(** A provider whose historical fetch of one interval raises. *)
Definition feed_broken (interval_name : string) : DataProviders := {|
  environ_DATA_PROVIDER := None;
  Metadata := unit;
  get_current_ohlcv := λ _ _ _, Ok (new_btc_eth, tt);
  get_historical_ohlcv := λ _ _ interval _,
    if decide (interval = interval_name) then Raise (External "HTTP 429")
    else Ok (existing_btc_eth, tt);
|}.

(** Three symbols, and a store whose raw and 1h tables hold them. *)
Definition btc_eth_sol : DataFrame :=
  [ candle 1730628000000 "SOL" 160 165 158 162 7;
    candle 1730628000000 "BTC" 100 110 90 105 1;
    candle 1730628000000 "ETH" 10 11 9 10.5 2 ].

Definition two_tables_world : World (Tables (I := indicators)) :=
  mkWorld
    (mkTables {[ "ohlcv_raw" := btc_eth_sol; "ohlcv_1h" := btc_eth_sol ]} ∅)
    [] [].

(** A store whose 1h table holds the bucket of the example. *)
Definition bucket_world : World (Tables (I := indicators)) :=
  mkWorld (mkTables {[ "ohlcv_1h" := [bucket] ]} ∅) [] [].

(** The coroutines of the scheduler on these libraries. *)
Definition refresh_with (P : DataProviders) : M (Tables (I := indicators)) unit :=
  update_ohlcv_data (P := P) (R := spec_repositories) (C := utc_calendar).
Definition seed_with (P : DataProviders) : M (Tables (I := indicators)) unit :=
  seed (P := P) (R := spec_repositories).
Definition process_with (P : DataProviders) : M (Tables (I := indicators)) unit :=
  process (P := P) (R := spec_repositories) (C := utc_calendar).

End Sample.

(** ** Predicates of the statements *)

(** The world after one more log record. *)
Definition logged {S} (lvl : Level) (msg : string) (w : World S) : World S :=
  mkWorld (db w) (log w ++ [(lvl, msg)])%list (journal w).

Section predicates.
Context {F : Float64Ops} {I : IndicatorLib} {R : Repositories}.

(** Every upsert a coroutine adds to the journal satisfies [Q]. *)
Definition journals {A} (Q : Upsert → Prop) (m : M Store A) : Prop :=
  ∀ w, ∃ j, journal (m w).2 = (journal w ++ j)%list ∧ Forall Q j.

(** An upsert into the OHLCV table of a resolution, keyed on timestamp. *)
Definition ohlcv_on_timestamp (u : Upsert) : Prop :=
  ∃ interval_name, interval_name ∈ interval_names
    ∧ u = mkUpsert (ohlcv_table interval_name) on_timestamp.

(** An upsert into the indicator table of a resolution, keyed on timestamp
    and symbol. *)
Definition indicators_on_timestamp_and_symbol (u : Upsert) : Prop :=
  ∃ interval_name, interval_name ∈ interval_names
    ∧ u = mkUpsert (indicators_table interval_name) on_timestamp_and_symbol.

(** Whether the symbol has a record in the frame and the indicator routine
    returns on its series. *)
Definition computes (df : DataFrame) (symbol_ : string) : bool :=
  match filter (λ r, symbol r = symbol_) df with
  | [] => false
  | symbol_df =>
      match calculate_ta_indicators symbol_df with
      | Ok _ => true
      | Raise _ => false
      end
  end.

(** The upserts of the interval loop of a refresh, one per resolution. *)
Definition interval_upserts (names : list string) : list Upsert :=
  (λ interval_name, mkUpsert (ohlcv_table interval_name) on_timestamp) <$> names.

End predicates.

(** A coroutine keeps a property of the store. *)
Definition preserves {S A} (Inv : S → Prop) (m : M S A) : Prop :=
  ∀ w, Inv (db w) → Inv (db (m w).2).

(** ** Facts on the interval merge *)

Section merge_facts.
Context {F : Float64Ops}.

Lemma length_with_columns_cast (df : DataFrame) :
  length (with_columns_cast df) = length df.
Proof. unfold with_columns_cast. by rewrite length_fmap. Qed.

(** What [with_columns] leaves in row [i]. *)
Lemma with_columns_cast_lookup (df : DataFrame) i r :
  df !! i = Some r →
  with_columns_cast df !! i
  = Some (mkRow (timestamp r) (symbol r) (open r)
            (cast_Float64 (high r)) (cast_Float64 (low r))
            (cast_Float64 (close r)) (cast_Float64 (volume r))).
Proof. intros Hr. unfold with_columns_cast. by rewrite list_lookup_fmap, Hr. Qed.

(** The columns of the cast frame. *)
Lemma with_columns_cast_columns (df : DataFrame) :
  timestamp <$> with_columns_cast df = timestamp <$> df
  ∧ symbol <$> with_columns_cast df = symbol <$> df
  ∧ open <$> with_columns_cast df = open <$> df
  ∧ high <$> with_columns_cast df = (λ r, cast_Float64 (high r)) <$> df
  ∧ low <$> with_columns_cast df = (λ r, cast_Float64 (low r)) <$> df
  ∧ close <$> with_columns_cast df = (λ r, cast_Float64 (close r)) <$> df
  ∧ volume <$> with_columns_cast df = (λ r, cast_Float64 (volume r)) <$> df.
Proof.
  unfold with_columns_cast. repeat split; by rewrite <- list_fmap_compose.
Qed.

(** A dict with an expression among its values is refused. *)
Lemma pl_DataFrame_expression (data : FrameDict) e :
  d_high data = Expression e →
  pl_DataFrame data = Raise (TypeError expr_in_constructor_message).
Proof.
  intros Hhigh. unfold pl_DataFrame. rewrite Hhigh.
  by destruct (d_timestamp data), (d_symbol data), (d_open data).
Qed.


(** The merge never returns a frame: what it raises is the refusal of the
    dict by [pl.DataFrame], or the error of the sum of the volumes. *)
Lemma update_interval_record_raises (existing_df new_data_df : DataFrame) :
  update_interval_record existing_df new_data_df
  = match series_plus (volume <$> with_columns_cast existing_df)
                      (volume <$> with_columns_cast new_data_df) with
    | Ok _ => Raise (TypeError expr_in_constructor_message)
    | Raise e => Raise e
    end.
Proof.
  unfold update_interval_record, interval_record_dict.
  destruct (series_plus _ _) as [sum|e]; [|done].
  by eapply pl_DataFrame_expression.
Qed.

Lemma series_plus_same_length (a b : list Cell) :
  length a = length b → series_plus a b = Ok (zip_with series_add a b).
Proof. intros Hlen. unfold series_plus. by rewrite decide_True. Qed.



Lemma update_interval_record_not_Ok (existing_df new_data_df df : DataFrame) :
  update_interval_record existing_df new_data_df ≠ Ok df.
Proof.
  rewrite update_interval_record_raises. by destruct (series_plus _ _).
Qed.

(** On frames of equal height the volumes add up, and the constructor
    refuses the dict. *)
Lemma update_interval_record_equal_heights (existing_df new_data_df : DataFrame) :
  length existing_df = length new_data_df →
  update_interval_record existing_df new_data_df
  = Raise (TypeError expr_in_constructor_message).
Proof.
  intros Hlen. rewrite update_interval_record_raises.
  by rewrite series_plus_same_length
    by by rewrite !length_fmap, !length_with_columns_cast.
Qed.


(** C2, on the code: the dict of the merge holds the expressions of
    [pl.max_horizontal] and [pl.min_horizontal], which [pl.DataFrame]
    refuses, so the merge returns a frame on no input; on two frames of
    equal height, the bucket and the observation of the specification among
    them, it raises [TypeError]. *)
Theorem interval_merge_never_returns :
  (∀ existing_df new_data_df df : DataFrame,
     update_interval_record existing_df new_data_df ≠ Ok df)
  ∧ (∀ existing_df new_data_df : DataFrame,
       length existing_df = length new_data_df →
       update_interval_record existing_df new_data_df
       = Raise (TypeError expr_in_constructor_message)).
Proof.
  split.
  - intros e n df. apply update_interval_record_not_Ok.
  - apply update_interval_record_equal_heights.
Qed.


(** C10, on the code: for two frames of equal height the dict of the merge
    takes its timestamp, symbol and open columns from the existing frame
    and its close column from the new frame, and adds the volumes of the
    rows at the same position, whatever the symbols of the two rows are;
    the frame itself is never built, since [pl.DataFrame] raises
    [TypeError] on this dict. *)
Theorem merge_pairs_by_position (existing_df new_data_df : DataFrame) :
  length existing_df = length new_data_df →
  (∃ data sum,
     interval_record_dict existing_df new_data_df = Ok data
     ∧ d_timestamp data = Series (timestamp <$> existing_df)
     ∧ d_symbol data = Series (symbol <$> existing_df)
     ∧ d_open data = Series (open <$> existing_df)
     ∧ d_close data = Series ((λ r, cast_Float64 (close r)) <$> new_data_df)
     ∧ d_volume data = Series sum
     ∧ length sum = length existing_df
     ∧ ∀ i e n,
         existing_df !! i = Some e → new_data_df !! i = Some n →
         sum !! i
         = Some (Float64 (f64_add (as_f64 (volume e)) (as_f64 (volume n)))))
  ∧ update_interval_record existing_df new_data_df
    = Raise (TypeError expr_in_constructor_message).
Proof.
  intros Hlen. split.
  - unfold interval_record_dict.
    destruct (with_columns_cast_columns existing_df)
      as (-> & -> & -> & -> & -> & _ & ->).
    destruct (with_columns_cast_columns new_data_df)
      as (_ & _ & _ & -> & -> & -> & ->).
    rewrite series_plus_same_length by by rewrite !length_fmap.
    eexists _, _. repeat split.
    + rewrite length_zip_with, !length_fmap. lia.
    + intros i e n He Hn.
      by rewrite lookup_zip_with, !list_lookup_fmap, He, Hn.
  - by apply update_interval_record_equal_heights.
Qed.

End merge_facts.

(** The bucket and the observation of the specification: no merged record
    comes out. *)
Lemma interval_merge_example :
  update_interval_record [Sample.bucket] [Sample.observation]
  = Raise (TypeError expr_in_constructor_message).
Proof.
  exact (proj2 interval_merge_never_returns [Sample.bucket]
           [Sample.observation] eq_refl).
Defined.



(** Two frames with the same symbols in opposite orders: the volume of the
    ETH observation is added to the row labelled BTC, and no frame is
    built. *)
Lemma merge_mismatched_symbols :
  (∃ data,
     interval_record_dict Sample.existing_btc_eth Sample.new_eth_btc = Ok data
     ∧ d_symbol data = Series ["BTC"; "ETH"]
     ∧ d_volume data = Series [Float64 4%float; Float64 6%float])
  ∧ update_interval_record Sample.existing_btc_eth Sample.new_eth_btc
    = Raise (TypeError expr_in_constructor_message).
Proof.
  destruct (merge_pairs_by_position Sample.existing_btc_eth Sample.new_eth_btc
              eq_refl) as [(data & sum & Hdata & _ & Hs & _) Hraise].
  split; [|exact Hraise].
  exists data. split; [exact Hdata|]. split; [exact Hs|].
  injection Hdata as <-. reflexivity.
Defined.

(** ** Facts on the scheduler *)

Ltac unfold_monad :=
  unfold mbind, M_bind, mret, M_ret, bind, ret, lift, logger, get_all,
    get_by_timestamp in *.

Section scheduler_facts.
Context {F : Float64Ops} {P : DataProviders} {I : IndicatorLib}
        {R : Repositories} {C : Calendar}.

Lemma for_cons {A} (x : A) (l : list A) (body : A → M Store unit) w :
  for_ (x :: l) body w
  = match body x w with
    | (Ok _, w') => for_ l body w'
    | (Raise e, w') => (Raise e, w')
    end.
Proof. reflexivity. Qed.

Lemma for_app {A} (l1 l2 : list A) (body : A → M Store unit) w :
  for_ (l1 ++ l2) body w
  = match for_ l1 body w with
    | (Ok _, w') => for_ l2 body w'
    | (Raise e, w') => (Raise e, w')
    end.
Proof.
  revert w. induction l1 as [|x l1 IH]; intros w; [done|].
  rewrite <- app_comm_cons, !for_cons.
  destruct (body x w) as [[[]|e] w']; [apply IH|done].
Qed.

(** C7: the provider class is a total function of the value of
    DATA_PROVIDER: [binance] selects the Binance provider, [coinpaprika]
    the CoinPaprika provider, and every other value, the unset variable
    included, the dummy provider. *)
Theorem provider_selection (v : option string) :
  (v = Some "binance" → select_provider v = BinanceCoinPriceDataProvider)
  ∧ (v = Some "coinpaprika" → select_provider v = CoinPaprikaCoinPriceDataProvider)
  ∧ (v ≠ Some "binance" → v ≠ Some "coinpaprika" →
     select_provider v = DummyCoinPriceDataProvider).
Proof.
  unfold select_provider. repeat split.
  - by intros ->.
  - by intros ->.
  - intros H1 H2. by rewrite !decide_False.
Qed.

(** C9: when the provider's current fetch returns no row, the first-row
    access raises and [update_ohlcv_data] stops there: the world is as it
    was, no upsert issued; the refresh cycle raises the same exception with
    the store and the journal untouched. *)
Theorem update_ohlcv_data_empty_fetch (meta : Metadata) (w : World Store) :
  get_current_ohlcv DataProvider COINS "30m" = Ok ([], meta) →
  update_ohlcv_data w = (Raise IndexError, w)
  ∧ ∃ w', data_ingestion_job w = (Raise IndexError, w')
          ∧ db w' = db w ∧ journal w' = journal w.
Proof.
  intros Hfetch.
  assert (∀ w0, update_ohlcv_data w0 = (Raise IndexError, w0)) as Hraise.
  { intros w0. unfold update_ohlcv_data. unfold_monad. by rewrite Hfetch. }
  split; [apply Hraise|].
  eexists. split.
  - unfold data_ingestion_job. unfold_monad. simpl. by rewrite Hraise.
  - done.
Qed.

(** C4: when the lookup at the bucket start returns no frame or an empty
    one, the interval update upserts the frame [create_new_interval_record]
    builds: one record per new observation, with the observation's symbol,
    open, high, low, close and volume unchanged and the bucket start as its
    timestamp. *)
Theorem interval_bucket_creation (repository interval_name : string)
    (new_data_df : DataFrame) (current_time : datetime) (w : World Store)
    (existing : option DataFrame) :
  let interval_start_time := get_interval_start_time current_time interval_name in
  let created :=
    create_new_interval_record interval_start_time interval_name new_data_df in
  ohlcv_get_by_timestamp repository (epoch_ms interval_start_time) (db w)
    = Ok existing →
  existing = None ∨ existing = Some [] →
  update_interval_data repository interval_name new_data_df current_time w
    = repository_update repository created on_timestamp w
  ∧ length created = length new_data_df
  ∧ ∀ i n, new_data_df !! i = Some n →
      created !! i =
        Some {| timestamp := epoch_ms interval_start_time;
                symbol := symbol n;
                open := open n; high := high n; low := low n;
                close := close n; volume := volume n |}.
Proof.
  intros start created Hget Hnone. split; [|split].
  - unfold update_interval_data. unfold_monad. fold start. rewrite Hget.
    destruct Hnone as [-> | ->]; reflexivity.
  - unfold created, create_new_interval_record. by rewrite length_fmap.
  - intros i n Hn. unfold created, create_new_interval_record.
    by rewrite list_lookup_fmap, Hn.
Qed.

(** C5: a resolution whose historical fetch returns no row is skipped by
    [seed]: its loop body returns without raising, with the store and the
    journal of upserts as they were; the loop goes on with the remaining
    resolutions, and the indicators are recomputed after the loop. *)
Theorem seed_skips_empty_resolution (pre post : list string)
    (interval_name : string) (meta : Metadata) (w0 w : World Store) :
  interval_names = (pre ++ interval_name :: post)%list →
  get_historical_ohlcv DataProvider COINS
    (if decide (interval_name = "raw") then "30m" else interval_name)
    (if decide (interval_name = "raw") then 1000 else 100) = Ok ([], meta) →
  for_ pre (seed_interval DataProvider) w0 = (Ok tt, w) →
  let w1 := logged INFO ("Seeding " +:+ interval_name +:+ " interval") w in
  seed_interval DataProvider interval_name w = (Ok tt, w1)
  ∧ db w1 = db w
  ∧ journal w1 = journal w
  ∧ seed w0 = (for_ post (seed_interval DataProvider);; update_indicators_data) w1.
Proof.
  intros Hnames Hfetch Hpre w1.
  assert (seed_interval DataProvider interval_name w = (Ok tt, w1)) as Hstep.
  { unfold seed_interval. unfold_monad. simpl. by rewrite Hfetch. }
  repeat split; [done|].
  unfold seed. unfold_monad. rewrite Hnames, for_app, Hpre, for_cons, Hstep.
  reflexivity.
Qed.

(** The body of the symbol loop never raises. *)
Lemma indicators_for_symbol_returns (indicators_repository : string)
    (df : DataFrame) (symbol_ : string) (w : World Store) :
  ∃ w', indicators_for_symbol indicators_repository df symbol_ w = (Ok tt, w').
Proof.
  unfold indicators_for_symbol. case_decide; [by eexists|].
  unfold try_except, indicators_repository_update. unfold_monad.
  destruct (calculate_ta_indicators _) as [inds|e]; [|by eexists].
  destruct (indicators_update _ _ _ _); by eexists.
Qed.

Lemma symbol_loop_returns (indicators_repository : string) (df : DataFrame)
    (symbols : list string) (w : World Store) :
  ∃ w', for_ symbols (indicators_for_symbol indicators_repository df) w
        = (Ok tt, w').
Proof.
  revert w. induction symbols as [|s symbols IH]; intros w; [by eexists|].
  rewrite for_cons.
  destruct (indicators_for_symbol_returns indicators_repository df s w)
    as [w1 ->].
  apply IH.
Qed.

(** A resolution raises only what the read of its OHLCV table raised, and
    the store is then the one that was read. *)
Lemma update_indicators_interval_raises (interval_name : string)
    (w w' : World Store) e :
  update_indicators_interval interval_name w = (Raise e, w') →
  ohlcv_get_all (ohlcv_table interval_name) (db w') = Raise e.
Proof.
  unfold update_indicators_interval. unfold_monad. simpl.
  destruct (ohlcv_get_all _ _) as [[df|]|e'] eqn:Hget.
  - case_decide; [done|].
    destruct (symbol_loop_returns (indicators_table interval_name)
                (sort_by_symbol_timestamp df)
                (unique (symbol <$> sort_by_symbol_timestamp df))
                (mkWorld (db w)
                   (log w ++ [(INFO, "Updating indicators for " +:+ interval_name
                                     +:+ " interval")])%list (journal w)))
      as [w1 ->].
    done.
  - done.
  - by intros [= <- <-].
Qed.

Lemma update_indicators_loop_raises (names : list string) (w w' : World Store) e :
  for_ names update_indicators_interval w = (Raise e, w') →
  ∃ interval_name, interval_name ∈ names
    ∧ ohlcv_get_all (ohlcv_table interval_name) (db w') = Raise e.
Proof.
  revert w. induction names as [|n names IH]; intros w; [done|].
  rewrite for_cons.
  destruct (update_indicators_interval n w) as [[[]|e1] w1] eqn:Hn.
  - intros (n' & Hin & Hget)%IH. exists n'. split; [by right|done].
  - intros [= <- <-]. exists n. split; [by left|].
    by eapply update_indicators_interval_raises.
Qed.

(** A symbol of the loop has records in the frame. *)
Lemma unique_symbol_has_records (df : DataFrame) (symbol_ : string) :
  symbol_ ∈ unique (symbol <$> df) →
  length (filter (λ r, symbol r = symbol_) df) ≠ 0%nat.
Proof.
  unfold unique. rewrite elem_of_remove_dups.
  intros (r & -> & Hr)%list_elem_of_fmap Hlen%nil_length_inv.
  assert (r ∈ filter (λ r0, symbol r0 = symbol r) df) as Hf
    by by apply list_elem_of_filter.
  rewrite Hlen in Hf. by apply not_elem_of_nil in Hf.
Qed.

(** The loop body on a symbol with records whose indicators the routine
    returns: the upsert of these rows is issued, and an error of the upsert
    is logged. *)
Lemma indicators_for_symbol_computes (indicators_repository : string)
    (df : DataFrame) (symbol_ : string) inds (w : World Store) :
  length (filter (λ r, symbol r = symbol_) df) ≠ 0%nat →
  calculate_ta_indicators (filter (λ r, symbol r = symbol_) df) = Ok inds →
  let j := (journal w
            ++ [mkUpsert indicators_repository on_timestamp_and_symbol])%list in
  indicators_for_symbol indicators_repository df symbol_ w
  = match indicators_update indicators_repository inds on_timestamp_and_symbol
            (db w) with
    | Ok s => (Ok tt, mkWorld s (log w) j)
    | Raise e =>
        (Ok tt,
         logged ERROR ("Error calculating indicators for " +:+ symbol_ +:+ ": "
                       +:+ exception_message e)
           (mkWorld (db w) (log w) j))
    end.
Proof.
  intros Hlen Hcalc j. unfold indicators_for_symbol.
  rewrite decide_False by done.
  unfold try_except, indicators_repository_update. unfold_monad.
  rewrite Hcalc. by destruct (indicators_update _ _ _ _).
Qed.

(** C6: when the indicator routine raises on the series of a symbol of a
    resolution, [update_indicators_data] reaches that symbol, logs the
    error and leaves the store and the journal as they were; the run goes
    on with the remaining symbols of the resolution: each of them whose
    indicators the routine returns is reached, and its rows are handed to
    the upsert of the indicator table, keyed on timestamp and symbol; then
    the run goes on with the resolutions that follow. The exception of the
    symbol does not leave [update_indicators_data]: what it raises is what
    the read of the OHLCV table of a later resolution raised. *)
Theorem indicator_failure_is_isolated (pre post : list string)
    (interval_name : string) (df : DataFrame) (spre spost : list string)
    (symbol_ : string) e (w0 w : World Store) :
  interval_names = (pre ++ interval_name :: post)%list →
  for_ pre update_indicators_interval w0 = (Ok tt, w) →
  ohlcv_get_all (ohlcv_table interval_name) (db w) = Ok (Some df) →
  let sorted := sort_by_symbol_timestamp df in
  let indicators_repository := indicators_table interval_name in
  let body := indicators_for_symbol indicators_repository sorted in
  unique (symbol <$> sorted) = (spre ++ symbol_ :: spost)%list →
  calculate_ta_indicators (filter (λ r, symbol r = symbol_) sorted) = Raise e →
  ∃ ws w2,
    let w1 :=
      logged ERROR ("Error calculating indicators for " +:+ symbol_ +:+ ": "
                    +:+ exception_message e) ws in
    for_ spre body
      (logged INFO ("Updating indicators for " +:+ interval_name +:+ " interval")
         w) = (Ok tt, ws)
    ∧ body symbol_ ws = (Ok tt, w1)
    ∧ db w1 = db ws
    ∧ journal w1 = journal ws
    ∧ for_ spost body w1 = (Ok tt, w2)
    ∧ (∀ s1 s s2 inds,
         spost = (s1 ++ s :: s2)%list →
         calculate_ta_indicators (filter (λ r, symbol r = s) sorted) = Ok inds →
         ∃ wa wb,
           for_ s1 body w1 = (Ok tt, wa)
           ∧ body s wa = (Ok tt, wb)
           ∧ journal wb
             = (journal wa
                ++ [mkUpsert indicators_repository on_timestamp_and_symbol])%list
           ∧ (∀ st,
                indicators_update indicators_repository inds
                  on_timestamp_and_symbol (db wa) = Ok st →
                db wb = st)
           ∧ for_ s2 body wb = (Ok tt, w2))
    ∧ update_indicators_data w0 = for_ post update_indicators_interval w2
    ∧ (∀ e' w3, update_indicators_data w0 = (Raise e', w3) →
         ∃ later, later ∈ post
           ∧ ohlcv_get_all (ohlcv_table later) (db w3) = Raise e').
Proof.
  intros Hnames Hpre Hget sorted indicators_repository body Hsymbols Hcalc.
  subst body.
  set (wi := logged INFO ("Updating indicators for " +:+ interval_name
                          +:+ " interval") w).
  destruct (symbol_loop_returns indicators_repository sorted spre wi)
    as [ws Hspre].
  set (w1 := logged ERROR ("Error calculating indicators for " +:+ symbol_
                           +:+ ": " +:+ exception_message e) ws).
  destruct (symbol_loop_returns indicators_repository sorted spost w1)
    as [w2 Hspost].
  assert (∀ s, s ∈ (spre ++ symbol_ :: spost)%list →
            length (filter (λ r, symbol r = s) sorted) ≠ 0%nat) as Hrecords.
  { intros s Hs. apply unique_symbol_has_records. by rewrite Hsymbols. }
  assert (indicators_for_symbol indicators_repository sorted symbol_ ws
          = (Ok tt, w1)) as Hstep.
  { unfold indicators_for_symbol. rewrite decide_False.
    - unfold try_except. unfold_monad. by rewrite Hcalc.
    - apply Hrecords. set_solver. }
  assert (update_indicators_interval interval_name w = (Ok tt, w2)) as Hinterval.
  { transitivity (for_ (unique (symbol <$> sorted))
                    (indicators_for_symbol indicators_repository sorted) wi).
    - unfold update_indicators_interval. unfold_monad. simpl. rewrite Hget.
      rewrite decide_False; [done|].
      intros Hlen%nil_length_inv. subst df.
      destruct spre; discriminate Hsymbols.
    - by rewrite Hsymbols, for_app, Hspre, for_cons, Hstep. }
  assert (update_indicators_data w0 = for_ post update_indicators_interval w2)
    as Hrun.
  { unfold update_indicators_data.
    by rewrite Hnames, for_app, Hpre, for_cons, Hinterval. }
  exists ws, w2. simpl.
  split; [done|]. split; [done|]. split; [done|]. split; [done|].
  split; [done|]. split; [|split; [done|]].
  - intros s1 s s2 inds -> Hs.
    destruct (symbol_loop_returns indicators_repository sorted s1 w1)
      as [wa Hs1].
    destruct (indicators_for_symbol_returns indicators_repository sorted s wa)
      as [wb Hsb].
    exists wa, wb. split; [done|]. split; [done|].
    rewrite for_app, Hs1, for_cons, Hsb in Hspost.
    pose proof (indicators_for_symbol_computes indicators_repository sorted s
                  inds wa) as Hbody.
    simpl in Hbody. rewrite Hsb in Hbody.
    specialize (Hbody ltac:(apply Hrecords; set_solver) Hs).
    destruct (indicators_update _ _ _ _) as [st|e2]; injection Hbody as ->.
    + split; [done|]. split; [|done]. by intros ? [= <-].
    + split; [done|]. split; [|done]. done.
  - intros e' w3. rewrite Hrun.
    apply update_indicators_loop_raises.
Qed.

(** *** The upserts a coroutine issues *)

Lemma journals_silent {A} Q (m : M Store A) :
  (∀ w, journal (m w).2 = journal w) → journals Q m.
Proof. intros H w. exists []. by rewrite H, app_nil_r. Qed.

Lemma journals_mono {A} (Q Q' : Upsert → Prop) (m : M Store A) :
  (∀ u, Q u → Q' u) → journals Q m → journals Q' m.
Proof.
  intros HQ Hm w. destruct (Hm w) as (j & Hj & Hall).
  exists j. split; [done|]. by eapply Forall_impl.
Qed.

Lemma journals_bind {A B} Q (m : M Store A) (k : A → M Store B) :
  journals Q m → (∀ a, journals Q (k a)) → journals Q (m ≫= k).
Proof.
  intros Hm Hk w. unfold_monad. destruct (Hm w) as (j1 & Hj1 & H1).
  destruct (m w) as [[a|e] w1]; simpl in *.
  - destruct (Hk a w1) as (j2 & Hj2 & H2).
    exists (j1 ++ j2)%list. rewrite Hj2, Hj1, app_assoc.
    split; [done|]. by apply Forall_app.
  - by exists j1.
Qed.

Lemma journals_try Q (body : M Store unit) (handler : Exception → M Store unit) :
  journals Q body → (∀ e, journals Q (handler e)) →
  journals Q (try_except body handler).
Proof.
  intros Hm Hk w. unfold try_except. destruct (Hm w) as (j1 & Hj1 & H1).
  destruct (body w) as [[a|e] w1]; simpl in *.
  - by exists j1.
  - destruct (Hk e w1) as (j2 & Hj2 & H2).
    exists (j1 ++ j2)%list. rewrite Hj2, Hj1, app_assoc.
    split; [done|]. by apply Forall_app.
Qed.

Lemma journals_for {A} Q (l : list A) (body : A → M Store unit) :
  (∀ x, x ∈ l → journals Q (body x)) → journals Q (for_ l body).
Proof.
  induction l as [|x l IH]; intros Hbody.
  - by apply journals_silent.
  - apply (journals_bind Q (body x) (λ _, for_ l body)).
    + apply Hbody. by left.
    + intros _. apply IH. intros y Hy. apply Hbody. by right.
Qed.

Lemma journals_repository_update (Q : Upsert → Prop) table_name df predicate :
  Q (mkUpsert table_name predicate) →
  journals Q (repository_update table_name df predicate).
Proof.
  intros HQ w. exists [mkUpsert table_name predicate].
  unfold repository_update.
  destruct (ohlcv_update _ _ _ _); simpl; (split; [done|by apply Forall_singleton]).
Qed.

Lemma journals_indicators_repository_update (Q : Upsert → Prop)
    table_name rows predicate :
  Q (mkUpsert table_name predicate) →
  journals Q (indicators_repository_update table_name rows predicate).
Proof.
  intros HQ w. exists [mkUpsert table_name predicate].
  unfold indicators_repository_update.
  destruct (indicators_update _ _ _ _); simpl;
    (split; [done|by apply Forall_singleton]).
Qed.

Lemma journals_update_interval_data repository interval_name new_data_df t :
  journals (λ u, u = mkUpsert repository on_timestamp)
    (update_interval_data repository interval_name new_data_df t).
Proof.
  unfold update_interval_data.
  apply journals_bind; [by apply journals_silent|]. intros existing.
  apply journals_bind; [|intros; by apply journals_repository_update].
  destruct existing as [df|]; [case_decide|]; by apply journals_silent.
Qed.

Lemma journals_update_ohlcv_data : journals ohlcv_on_timestamp update_ohlcv_data.
Proof.
  unfold update_ohlcv_data.
  apply journals_bind; [by apply journals_silent|]. intros fetched.
  apply journals_bind; [by apply journals_silent|]. intros r0.
  apply journals_bind.
  - apply journals_repository_update. exists "raw".
    split; [by left|done].
  - intros _. apply journals_for. intros n Hn.
    eapply journals_mono; [|apply journals_update_interval_data].
    intros u ->. exists n. split; [by right|done].
Qed.

Lemma journals_seed_interval data_provider interval_name :
  interval_name ∈ interval_names →
  journals ohlcv_on_timestamp (seed_interval data_provider interval_name).
Proof.
  intros Hin. unfold seed_interval.
  apply journals_bind; [by apply journals_silent|]. intros _.
  apply journals_bind; [by apply journals_silent|]. intros [[|r rows] meta]; simpl.
  - by apply journals_silent.
  - apply journals_repository_update. by exists interval_name.
Qed.

Lemma journals_update_indicators_data :
  journals indicators_on_timestamp_and_symbol update_indicators_data.
Proof.
  unfold update_indicators_data. apply journals_for. intros n Hn.
  unfold update_indicators_interval.
  apply journals_bind; [by apply journals_silent|]. intros _.
  apply journals_bind; [by apply journals_silent|]. intros [df|].
  - case_decide; [by apply journals_silent|].
    apply journals_for. intros s _. unfold indicators_for_symbol.
    case_decide; [by apply journals_silent|].
    apply journals_try; [|intros; by apply journals_silent].
    apply journals_bind; [by apply journals_silent|]. intros inds.
    apply journals_indicators_repository_update. by exists n.
  - by apply journals_silent.
Qed.

(** Every upsert of a whole run goes either into an OHLCV table keyed on
    timestamp or into an indicator table keyed on timestamp and symbol. *)
Lemma journals_process :
  journals (λ u, ohlcv_on_timestamp u ∨ indicators_on_timestamp_and_symbol u)
    process.
Proof.
  assert (journals (λ u, ohlcv_on_timestamp u ∨ indicators_on_timestamp_and_symbol u)
            update_indicators_data) as Hind.
  { eapply journals_mono; [|apply journals_update_indicators_data]. by right. }
  unfold process. apply journals_bind; [|intros _].
  - unfold seed. apply journals_bind; [|done].
    apply journals_for. intros n Hn.
    eapply journals_mono; [|by apply journals_seed_interval]. by left.
  - unfold data_ingestion_job.
    apply journals_bind; [by apply journals_silent|intros _].
    apply journals_bind; [|done].
    eapply journals_mono; [|apply journals_update_ohlcv_data]. by left.
Qed.

End scheduler_facts.

(** ** The uniqueness invariant, on the repositories of the contract *)

Section preserves_facts.
Context {S : Type} (Inv : S → Prop).

Lemma preserves_silent {A} (m : M S A) :
  (∀ w, db (m w).2 = db w) → preserves Inv m.
Proof. intros H w Hw. by rewrite H. Qed.

Lemma preserves_bind {A B} (m : M S A) (k : A → M S B) :
  preserves Inv m → (∀ a, preserves Inv (k a)) → preserves Inv (m ≫= k).
Proof.
  intros Hm Hk w Hw. unfold_monad. specialize (Hm w Hw).
  destruct (m w) as [[a|e] w1]; simpl in *; [by apply Hk|done].
Qed.

Lemma preserves_lift {A B} (r : Result A) (k : A → M S B) :
  (∀ a, r = Ok a → preserves Inv (k a)) → preserves Inv (lift r ≫= k).
Proof.
  intros Hk w Hw. destruct r as [a|e]; [|done]. by apply (Hk a eq_refl w Hw).
Qed.

Lemma preserves_try (body : M S unit) (handler : Exception → M S unit) :
  preserves Inv body → (∀ e, preserves Inv (handler e)) →
  preserves Inv (try_except body handler).
Proof.
  intros Hm Hk w Hw. unfold try_except. specialize (Hm w Hw).
  destruct (body w) as [[a|e] w1]; simpl in *; [done|by apply Hk].
Qed.

Lemma preserves_for {A} (l : list A) (body : A → M S unit) :
  (∀ x, x ∈ l → preserves Inv (body x)) → preserves Inv (for_ l body).
Proof.
  induction l as [|x l IH]; intros Hbody.
  - by apply preserves_silent.
  - apply (preserves_bind (body x) (λ _, for_ l body)).
    + apply Hbody. by left.
    + intros _. apply IH. intros y Hy. apply Hbody. by right.
Qed.

End preserves_facts.

Section upsert_facts.
Import SpecRepository.
Context {Rec : Type} (ts : Rec → Z) (sym : Rec → string).

(** An upsert on either key keeps at most one record per (timestamp, symbol)
    pair, when the batch has at most one. *)
Lemma upsert_unique (k : MatchKey) (source target : list Rec) :
  NoDup ((λ r, (ts r, sym r)) <$> target) →
  NoDup ((λ r, (ts r, sym r)) <$> source) →
  NoDup ((λ r, (ts r, sym r)) <$> upsert ts sym k source target).
Proof.
  intros Ht Hs. unfold upsert. rewrite fmap_app. apply NoDup_app.
  split; [|split; [|done]].
  - eapply sublist_NoDup; [exact Ht|]. apply fmap_sublist, sublist_filter.
  - intros x (t & -> & Hin)%list_elem_of_fmap (s & Heq & Hs')%list_elem_of_fmap.
    apply list_elem_of_filter in Hin as [Hno _]. apply Hno.
    apply Exists_exists. exists s. split; [done|].
    injection Heq as Hts Hsym. destruct k; simpl; auto.
Qed.

End upsert_facts.

Section store_invariant.
Import SpecRepository.
Context {F : Float64Ops} {P : DataProviders} {I : IndicatorLib} {C : Calendar}.
#[local] Existing Instance spec_repositories.

(** Distinct symbols make distinct (timestamp, symbol) pairs. *)
Lemma unique_records_of_symbols (df : DataFrame) :
  NoDup (symbol <$> df) → unique_records df.
Proof.
  intros H. unfold unique_records. apply (NoDup_fmap_1 snd).
  by rewrite <- list_fmap_compose.
Qed.

Lemma created_unique (t : datetime) (interval_name : string)
    (new_data_df : DataFrame) :
  NoDup (symbol <$> new_data_df) →
  unique_records (create_new_interval_record t interval_name new_data_df).
Proof.
  intros H. apply unique_records_of_symbols.
  unfold create_new_interval_record. by rewrite <- list_fmap_compose.
Qed.

(** An upsert of a batch with at most one record per pair keeps the
    invariant of the store. *)
Lemma preserves_repository_update (table_name : string) (df : DataFrame)
    (predicate : string) :
  unique_records df →
  preserves store_unique (repository_update table_name df predicate).
Proof.
  intros Hdf w Hw. unfold repository_update. simpl. unfold spec_ohlcv_update.
  destruct (parse_predicate predicate) as [k|]; simpl; [|done].
  intros name table. simpl.
  destruct (decide (table_name = name)) as [->|Hne].
  - rewrite lookup_insert_eq. intros [= <-].
    apply (upsert_unique timestamp symbol); [|done].
    destruct (ohlcv_tables (db w) !! name) as [old|] eqn:Hold; simpl.
    + by eapply Hw.
    + constructor.
  - rewrite lookup_insert_ne by done. apply Hw.
Qed.

Lemma preserves_update_interval_data (repository interval_name : string)
    (new_data_df : DataFrame) (t : datetime) :
  NoDup (symbol <$> new_data_df) →
  preserves store_unique
    (update_interval_data repository interval_name new_data_df t).
Proof.
  intros Hnew w Hw. unfold update_interval_data.
  unfold_monad. cbn -[repository_update update_interval_record].
  destruct (ohlcv_tables (db w) !! repository) as [table|] eqn:Htable;
    cbn -[repository_update update_interval_record].
  - case_decide as Hlen.
    + destruct (update_interval_record _ new_data_df) as [df|e] eqn:Hmerge;
        [|done].
      by apply update_interval_record_not_Ok in Hmerge.
    + apply preserves_repository_update; [|done]. by apply created_unique.
  - apply preserves_repository_update; [|done]. by apply created_unique.
Qed.

(** The indicator upserts do not touch the OHLCV tables. *)
Lemma preserves_update_indicators_data :
  preserves store_unique update_indicators_data.
Proof.
  unfold update_indicators_data. apply preserves_for. intros n _.
  unfold update_indicators_interval.
  apply preserves_bind; [by apply preserves_silent|]. intros _.
  apply preserves_bind; [by apply preserves_silent|]. intros [df|].
  - case_decide; [by apply preserves_silent|].
    apply preserves_for. intros s _. unfold indicators_for_symbol.
    case_decide; [by apply preserves_silent|].
    apply preserves_try; [|intros; by apply preserves_silent].
    apply preserves_bind; [by apply preserves_silent|]. intros inds w Hw.
    unfold indicators_repository_update. simpl. unfold spec_indicators_update.
    destruct (parse_predicate on_timestamp_and_symbol); simpl; [|done].
    intros name table. simpl. apply Hw.
  - by apply preserves_silent.
Qed.

Section provider_contract.
(** What the provider returns: one row per symbol from a current fetch, at
    most one row per (timestamp, symbol) pair from a historical one. *)
Hypothesis current_one_row_per_symbol :
  ∀ interval rows meta,
    get_current_ohlcv DataProvider COINS interval = Ok (rows, meta) →
    NoDup (symbol <$> rows).
Hypothesis historical_unique :
  ∀ interval limit rows meta,
    get_historical_ohlcv DataProvider COINS interval limit = Ok (rows, meta) →
    unique_records rows.

Lemma preserves_update_ohlcv_data : preserves store_unique update_ohlcv_data.
Proof.
  unfold update_ohlcv_data.
  apply preserves_lift. intros [rows meta] Hfetch.
  apply current_one_row_per_symbol in Hfetch.
  apply preserves_lift. intros r0 _.
  apply preserves_bind.
  - apply preserves_repository_update. by apply unique_records_of_symbols.
  - intros _. apply preserves_for. intros n _.
    by apply preserves_update_interval_data.
Qed.

Lemma preserves_seed : preserves store_unique seed.
Proof.
  unfold seed. apply preserves_bind; [|intros _; apply preserves_update_indicators_data].
  apply preserves_for. intros n _. unfold seed_interval.
  apply preserves_bind; [by apply preserves_silent|]. intros _.
  apply preserves_lift. intros [rows meta] Hfetch.
  apply historical_unique in Hfetch.
  simpl. destruct rows as [|r rows]; [by apply preserves_silent|].
  by apply preserves_repository_update.
Qed.

Lemma preserves_process : preserves store_unique process.
Proof.
  unfold process. apply preserves_bind; [apply preserves_seed|]. intros _.
  unfold data_ingestion_job.
  apply preserves_bind; [by apply preserves_silent|]. intros _.
  apply preserves_bind; [apply preserves_update_ohlcv_data|]. intros _.
  apply preserves_update_indicators_data.
Qed.

End provider_contract.

End store_invariant.

(** ** Facts on the harness *)

Section harness_facts.
Import Studio.
Context {G : GraphLib}.

(** Every sub-sequence of included plugins is kept. *)
Lemma keep_included_greatest (plugins kept : list Plugin) :
  kept `sublist_of` plugins →
  Forall (λ p, exclude p = false) kept →
  kept `sublist_of` keep_included plugins.
Proof.
  unfold keep_included. induction 1 as [|x l1 l2 _ IH|x l1 l2 _ IH]; intros Hall.
  - constructor.
  - apply Forall_cons_1 in Hall as [Hx Hall].
    rewrite filter_cons_True by done. constructor. by apply IH.
  - rewrite filter_cons. case_decide; [constructor|]; by apply IH.
Qed.

(** C8: the filtering step of the harness removes exactly the plugins whose
    exclude flag is set and keeps the others in their relative order: the
    kept list is a sub-sequence of the instantiated list, holds the plugins
    with the flag unset and no other, contains every sub-sequence of
    included plugins, and is the list handed to [create_graph]. *)
Theorem plugin_filtering (plugins : list Plugin) :
  keep_included plugins `sublist_of` plugins
  ∧ (∀ p, p ∈ keep_included plugins ↔ p ∈ plugins ∧ exclude p = false)
  ∧ (∀ p, p ∈ plugins → exclude p = true → p ∉ keep_included plugins)
  ∧ (∀ kept, kept `sublist_of` plugins →
       Forall (λ p, exclude p = false) kept →
       kept `sublist_of` keep_included plugins)
  ∧ (∀ registry_plugins,
       instantiate_plugins registry_plugins plugin_names = Ok plugins →
       test_chat registry_plugins
       = Ok (create_graph get_model (keep_included plugins) memory_saver)).
Proof.
  split; [apply sublist_filter|].
  split; [intros p; unfold keep_included; rewrite list_elem_of_filter; tauto|].
  split.
  { intros p _ Hex. unfold keep_included. rewrite list_elem_of_filter.
    intros [Hfalse _]. congruence. }
  split; [apply keep_included_greatest|].
  intros reg Hreg. unfold test_chat. by rewrite Hreg.
Qed.

End harness_facts.

(** ** The keys of the upserts, and the records of a resolution table *)

Lemma ohlcv_table_ne_indicators_table (n n' : string) :
  ohlcv_table n ≠ indicators_table n'.
Proof. unfold ohlcv_table, indicators_table. simpl. discriminate. Qed.

Section resolution_tables.
Import SpecRepository.
Context {F : Float64Ops} {P : DataProviders} {I : IndicatorLib} {C : Calendar}.

(** C1, as the code has it: every upsert a run issues into the OHLCV table
    of a resolution, raw or not, is keyed on timestamp alone, and the pair
    (timestamp, symbol) keys the upserts into the indicator tables only; on
    the repositories of the contract, fed by a provider that returns one row
    per symbol from a current fetch and at most one row per (timestamp,
    symbol) pair from a historical one, a run keeps at most one record per
    (timestamp, symbol) pair in every resolution table. *)
Theorem ohlcv_upserts_keyed_on_timestamp :
  (∀ interval rows meta,
     get_current_ohlcv DataProvider COINS interval = Ok (rows, meta) →
     NoDup (symbol <$> rows)) →
  (∀ interval limit rows meta,
     get_historical_ohlcv DataProvider COINS interval limit = Ok (rows, meta) →
     unique_records rows) →
  (∀ (R : Repositories) (w : World Store), ∃ j,
     journal (process w).2 = (journal w ++ j)%list
     ∧ Forall (λ u,
         (ohlcv_on_timestamp u ∨ indicators_on_timestamp_and_symbol u)
         ∧ (∀ n, upsert_table u = ohlcv_table n →
                 upsert_predicate u = on_timestamp)
         ∧ (∀ n, upsert_table u = indicators_table n →
                 upsert_predicate u = on_timestamp_and_symbol)) j)
  ∧ (∀ w : World Tables,
       store_unique (db w) →
       store_unique (db (process (R := spec_repositories) w).2)).
Proof.
  intros Hcur Hhist. split.
  - intros R w. destruct (journals_process w) as (j & Hj & Hall).
    exists j. split; [done|].
    eapply Forall_impl; [exact Hall|]. intros u Hu. split; [done|].
    destruct Hu as [(n' & _ & ->)|(n' & _ & ->)]; simpl; split; intros n Hn;
      first [done | by apply ohlcv_table_ne_indicators_table in Hn
            | by apply symmetry, ohlcv_table_ne_indicators_table in Hn].
  - intros w Hw. by apply preserves_process.
Qed.

End resolution_tables.

(** ** Runs of the model *)

Section runs.
Import SpecRepository.
#[local] Existing Instance spec_repositories.
#[local] Existing Instance Sample.utc_calendar.
#[local] Existing Instance Sample.indicators.

(** C1 as stated fails: the upserts of one refresh into the 1h, 4h and 1d
    tables are keyed on timestamp alone. *)
Lemma interval_tables_keyed_on_timestamp_alone :
  ¬ (∀ u,
       u ∈ journal (Sample.refresh_with Sample.feed_one Sample.empty_world).2 →
       upsert_table u ≠ ohlcv_table "raw" →
       upsert_predicate u = on_timestamp_and_symbol).
Proof.
  intros H. specialize (H (mkUpsert "ohlcv_1h" on_timestamp)).
  assert (journal (Sample.refresh_with Sample.feed_one Sample.empty_world).2
          = [mkUpsert "ohlcv_raw" on_timestamp; mkUpsert "ohlcv_1h" on_timestamp;
             mkUpsert "ohlcv_4h" on_timestamp; mkUpsert "ohlcv_1d" on_timestamp])
    as Hj by (vm_compute; reflexivity).
  rewrite Hj in H. discriminate H.
  - right. left.
  - discriminate.
Qed.

(** A whole run on an empty store, with a provider of two symbols. *)
Lemma process_keeps_unique_records :
  store_unique (db (Sample.process_with Sample.feed_two Sample.empty_world).2)
  ∧ ∃ j, journal (Sample.process_with Sample.feed_two Sample.empty_world).2 = j
         ∧ Forall (λ u, ∀ n, upsert_table u = ohlcv_table n →
                             upsert_predicate u = on_timestamp) j.
Proof.
  assert (∀ interval rows meta,
            get_current_ohlcv (DataProviders := Sample.feed_two)
              (DataProvider (P := Sample.feed_two)) COINS interval
            = Ok (rows, meta) →
            NoDup (symbol <$> rows)) as Hcur.
  { intros interval rows meta [= <- _].
    exact (bool_decide_unpack (NoDup (symbol <$> Sample.new_btc_eth)) I). }
  assert (∀ interval limit rows meta,
            get_historical_ohlcv (DataProviders := Sample.feed_two)
              (DataProvider (P := Sample.feed_two)) COINS interval limit
            = Ok (rows, meta) →
            unique_records rows) as Hhist.
  { intros interval limit rows meta [= <- _].
    exact (bool_decide_unpack
             (NoDup (record_key <$> Sample.existing_btc_eth)) I). }
  destruct (ohlcv_upserts_keyed_on_timestamp (P := Sample.feed_two) Hcur Hhist)
    as [Hkeys Hunique].
  split.
  - apply Hunique. intros name df Hlookup. discriminate Hlookup.
  - destruct (Hkeys spec_repositories Sample.empty_world) as (j & Hj & Hall).
    exists j. split; [exact Hj|].
    eapply Forall_impl; [exact Hall|]. intros u Hu. apply Hu.
Defined.

(** The first observation of the hour 10:00 creates the bucket of the 1h
    table at 10:00 with the observation's values. *)
Lemma interval_bucket_creation_run :
  ∃ w',
    update_interval_data (R := spec_repositories) (C := Sample.utc_calendar)
      "ohlcv_1h" "1h" [Sample.observation] 1730629800 Sample.empty_world
    = (Ok tt, w')
    ∧ ohlcv_tables (db w') !! "ohlcv_1h"
      = Some [Sample.candle 1730628000000 "BTC" 11.5 13 8 11 50].
Proof.
  destruct (interval_bucket_creation (R := spec_repositories)
              (C := Sample.utc_calendar) "ohlcv_1h" "1h"
              [Sample.observation] 1730629800 Sample.empty_world None eq_refl
              (or_introl eq_refl)) as (Hrun & _ & _).
  eexists. rewrite Hrun. split; reflexivity.
Defined.

(** Seeding with no 1h history: the 1h table is not created, the 4h and 1d
    tables are seeded and the indicators of the seeded tables computed. *)
Lemma seed_skips_empty_resolution_run :
  (Sample.seed_with Sample.feed_gap Sample.empty_world).1 = Ok tt
  ∧ ohlcv_tables (db (Sample.seed_with Sample.feed_gap Sample.empty_world).2)
      !! "ohlcv_1h" = None
  ∧ ohlcv_tables (db (Sample.seed_with Sample.feed_gap Sample.empty_world).2)
      !! "ohlcv_4h" = Some Sample.existing_btc_eth
  ∧ journal (Sample.seed_with Sample.feed_gap Sample.empty_world).2
    = [ mkUpsert "ohlcv_raw" on_timestamp;
        mkUpsert "ohlcv_4h" on_timestamp;
        mkUpsert "ohlcv_1d" on_timestamp;
        mkUpsert "indicators_raw" on_timestamp_and_symbol;
        mkUpsert "indicators_4h" on_timestamp_and_symbol;
        mkUpsert "indicators_1d" on_timestamp_and_symbol ].
Proof.
  destruct (seed_skips_empty_resolution (P := Sample.feed_gap)
              (R := spec_repositories) ["raw"] ["4h"; "1d"] "1h" tt
              Sample.empty_world
              (for_ ["raw"]
                 (seed_interval (P := Sample.feed_gap) (R := spec_repositories)
                    (DataProvider (P := Sample.feed_gap)))
                 Sample.empty_world).2
              eq_refl eq_refl eq_refl) as (_ & _ & _ & Hseed).
  unfold Sample.seed_with. rewrite Hseed.
  repeat split; vm_compute; reflexivity.
Defined.

(** The routine fails on ETH, the second of three symbols of the raw and
    of the 1h table: [update_indicators_data] returns, each failure is
    logged, and the indicators of BTC and of SOL are upserted into the
    indicator tables of both resolutions. *)
Lemma indicator_failure_is_isolated_run :
  ∃ w',
    update_indicators_data (R := spec_repositories) Sample.two_tables_world
    = (Ok tt, w')
    ∧ log w'
      = [ (INFO, "Updating indicators for raw interval");
          (ERROR, "Error calculating indicators for ETH: not enough candles");
          (INFO, "Updating indicators for 1h interval");
          (ERROR, "Error calculating indicators for ETH: not enough candles");
          (INFO, "Updating indicators for 4h interval");
          (INFO, "Updating indicators for 1d interval") ]
    ∧ journal w'
      = [ mkUpsert "indicators_raw" on_timestamp_and_symbol;
          mkUpsert "indicators_raw" on_timestamp_and_symbol;
          mkUpsert "indicators_1h" on_timestamp_and_symbol;
          mkUpsert "indicators_1h" on_timestamp_and_symbol ]
    ∧ indicator_tables (db w') !! "indicators_raw"
      = Some [ (1730628000000, "BTC", Float64 105%float);
               (1730628000000, "SOL", Float64 162%float) ]
    ∧ indicator_tables (db w') !! "indicators_1h"
      = Some [ (1730628000000, "BTC", Float64 105%float);
               (1730628000000, "SOL", Float64 162%float) ].
Proof.
  assert (ohlcv_get_all (Repositories := spec_repositories) (ohlcv_table "raw")
            (db Sample.two_tables_world) = Ok (Some Sample.btc_eth_sol))
    as Hget by (vm_compute; reflexivity).
  assert (unique (symbol <$> sort_by_symbol_timestamp Sample.btc_eth_sol)
          = (["BTC"] ++ "ETH" :: ["SOL"])%list)
    as Hsymbols by (vm_compute; reflexivity).
  assert (calculate_ta_indicators
            (filter (λ r, symbol r = "ETH")
               (sort_by_symbol_timestamp Sample.btc_eth_sol))
          = Raise (External "not enough candles"))
    as Hcalc by (vm_compute; reflexivity).
  destruct (indicator_failure_is_isolated (R := spec_repositories)
              [] ["1h"; "4h"; "1d"] "raw" Sample.btc_eth_sol ["BTC"] ["SOL"]
              "ETH" (External "not enough candles")
              Sample.two_tables_world Sample.two_tables_world
              eq_refl eq_refl Hget Hsymbols Hcalc)
    as (ws & w2 & Hspre & _ & _ & _ & Hspost & _ & Hrun & _).
  pose proof (f_equal snd Hspre) as Hws. cbn [snd] in Hws. subst ws.
  pose proof (f_equal snd Hspost) as Hw2. cbn [snd] in Hw2. subst w2.
  eexists. rewrite Hrun. repeat split; vm_compute; reflexivity.
Defined.

(** The unset variable and a differently cased value select the dummy
    provider. *)
Lemma provider_selection_run :
  select_provider None = DummyCoinPriceDataProvider
  ∧ select_provider (Some "Binance") = DummyCoinPriceDataProvider
  ∧ select_provider (Some "binance") = BinanceCoinPriceDataProvider
  ∧ select_provider (Some "coinpaprika") = CoinPaprikaCoinPriceDataProvider.
Proof.
  split; [|split; [|split]].
  - apply (provider_selection None); discriminate.
  - apply (provider_selection (Some "Binance")); discriminate.
  - by apply (provider_selection (Some "binance")).
  - by apply (provider_selection (Some "coinpaprika")).
Defined.

(** A refresh whose fetch returns no row. *)
Lemma update_ohlcv_data_empty_fetch_run :
  Sample.refresh_with Sample.feed_none Sample.empty_world
  = (Raise IndexError, Sample.empty_world).
Proof.
  exact (proj1 (update_ohlcv_data_empty_fetch (P := Sample.feed_none)
                  (R := spec_repositories) tt Sample.empty_world eq_refl)).
Defined.

(** The harness on a registry whose QuantaraAI plugin is excluded. *)
Lemma plugin_filtering_run :
  Studio.test_chat (G := Sample.slug_plugins) Sample.registry_plugins
  = Ok ["wallet"; "coin-technical-analyzer"; "coin-technical-chart-searcher"].
Proof.
  exact (proj2 (proj2 (proj2 (proj2
    (plugin_filtering (G := Sample.slug_plugins)
       [("wallet", false); ("QuantaraAI", true);
        ("coin-technical-analyzer", false);
        ("coin-technical-chart-searcher", false)]))))
    Sample.registry_plugins eq_refl).
Defined.

End runs.

(** ** More on the interval merge *)

Section more_merge_facts.
Context {F : Float64Ops} {C : Calendar}.

(** X1: what the merge raises, by the heights of the two frames: the
    refusal of the dict by [pl.DataFrame] when the volumes can be added,
    which is when the heights are equal or one of the frames has one row,
    and the error of the sum of the volumes otherwise. *)
Theorem update_interval_record_heights (existing_df new_data_df : DataFrame) :
  update_interval_record existing_df new_data_df
  = if decide (length existing_df = length new_data_df
               ∨ length existing_df = 1%nat ∨ length new_data_df = 1%nat)
    then Raise (TypeError expr_in_constructor_message)
    else Raise (InvalidOperationError
                  (different_lengths_message (length existing_df)
                     (length new_data_df))).
Proof.
  rewrite update_interval_record_raises. unfold series_plus.
  rewrite !length_fmap, !length_with_columns_cast.
  destruct (volume <$> with_columns_cast existing_df) as [|x [|x2 a]] eqn:Ha;
    destruct (volume <$> with_columns_cast new_data_df) as [|y [|y2 b]] eqn:Hb;
    apply (f_equal length) in Ha, Hb;
    rewrite length_fmap, length_with_columns_cast in Ha, Hb;
    simpl in Ha, Hb; rewrite Ha, Hb;
    repeat case_decide; first [done | lia].
Qed.

(** X13: the dict of [create_new_interval_record] holds seven Series of
    the height of the new frame, the timestamp Series being the bucket
    start repeated once per row: [pl.DataFrame] returns on it, and the
    frame it builds has, row by row, the bucket start and the symbol, open,
    high, low, close and volume of the new frame. *)
Theorem create_new_interval_record_columns (interval_start_time : datetime)
    (interval_name : string) (new_data_df : DataFrame) :
  pl_DataFrame
    {| d_timestamp :=
         Series (replicate (length new_data_df) (epoch_ms interval_start_time));
       d_symbol := Series (symbol <$> new_data_df);
       d_open := Series (open <$> new_data_df);
       d_high := Series (high <$> new_data_df);
       d_low := Series (low <$> new_data_df);
       d_close := Series (close <$> new_data_df);
       d_volume := Series (volume <$> new_data_df) |}
  = Ok (create_new_interval_record interval_start_time interval_name
          new_data_df).
Proof.
  unfold pl_DataFrame. simpl.
  rewrite decide_True by by rewrite !length_fmap, length_replicate.
  f_equal. unfold rows_of_columns, create_new_interval_record.
  induction new_data_df as [|n ns IH]; [done|].
  cbn in IH |- *. by rewrite IH.
Qed.

End more_merge_facts.

(** ** More on the scheduler *)

Section more_scheduler_facts.
Context {F : Float64Ops} {P : DataProviders} {I : IndicatorLib}
        {R : Repositories} {C : Calendar}.

(** X2: when the lookup at the bucket start returns a frame with at least
    one row, the interval update takes the merge branch, and the merge
    raises: the interval update raises the same exception before
    [repository.update] is called, leaving the store, the log and the
    journal as they were; with as many new rows as bucket rows the
    exception is the [TypeError] of the constructor. *)
Theorem interval_bucket_merge (repository interval_name : string)
    (new_data_df existing_df : DataFrame) (current_time : datetime)
    (w : World Store) :
  let interval_start_time := get_interval_start_time current_time interval_name in
  ohlcv_get_by_timestamp repository (epoch_ms interval_start_time) (db w)
    = Ok (Some existing_df) →
  existing_df ≠ [] →
  ∃ e,
    update_interval_record existing_df new_data_df = Raise e
    ∧ update_interval_data repository interval_name new_data_df current_time w
      = (Raise e, w)
    ∧ (length existing_df = length new_data_df →
       e = TypeError expr_in_constructor_message).
Proof.
  intros start Hget Hne.
  assert (0 < length existing_df)%nat as Hpos
    by (destruct existing_df; [done|simpl; lia]).
  destruct (update_interval_record existing_df new_data_df) as [df|e] eqn:Hmerge;
    [by apply update_interval_record_not_Ok in Hmerge|].
  exists e. split; [done|]. split.
  - unfold update_interval_data. unfold_monad. fold start.
    by rewrite Hget, decide_True, Hmerge by done.
  - intros Hlen.
    rewrite update_interval_record_equal_heights in Hmerge by done.
    by injection Hmerge.
Qed.

(** One interval update adds its upsert to the journal, or raises before
    it. *)
Lemma update_interval_data_journal (repository interval_name : string)
    (df : DataFrame) (t : datetime) (w : World Store) :
  (∃ e, (update_interval_data repository interval_name df t w).1 = Raise e
        ∧ journal (update_interval_data repository interval_name df t w).2
          = journal w)
  ∨ journal (update_interval_data repository interval_name df t w).2
    = (journal w ++ [mkUpsert repository on_timestamp])%list.
Proof.
  unfold update_interval_data. unfold_monad.
  destruct (ohlcv_get_by_timestamp _ _ _) as [o|e]; [|left; by exists e].
  assert (∀ updated,
            journal (repository_update repository updated on_timestamp w).2
            = (journal w ++ [mkUpsert repository on_timestamp])%list) as Hupd.
  { intros updated. unfold repository_update.
    by destruct (ohlcv_update _ _ _ _). }
  destruct o as [existing|]; [|right; apply Hupd].
  case_decide; [|right; apply Hupd].
  destruct (update_interval_record existing df) as [merged|e];
    [right; apply Hupd|left; by exists e].
Qed.

Lemma interval_loop_journal (names : list string) (df : DataFrame)
    (t : datetime) (w : World Store) :
  ∃ j,
    journal (for_ names (λ interval_name,
               update_interval_data (ohlcv_table interval_name) interval_name
                 df t) w).2 = (journal w ++ j)%list
    ∧ j `prefix_of` interval_upserts names
    ∧ ((for_ names (λ interval_name,
          update_interval_data (ohlcv_table interval_name) interval_name
            df t) w).1 = Ok tt → j = interval_upserts names).
Proof.
  revert w. induction names as [|n names IH]; intros w.
  { exists []. by rewrite app_nil_r. }
  rewrite for_cons.
  destruct (update_interval_data_journal (ohlcv_table n) n df t w)
    as [(e & He & Hj)|Hj];
    destruct (update_interval_data (ohlcv_table n) n df t w) as [[[]|e'] w1];
    simpl in *; try done.
  - exists []. rewrite app_nil_r. split; [done|]. split; [apply prefix_nil|done].
  - destruct (IH w1) as (j & Hj1 & Hpre & Hok).
    exists (mkUpsert (ohlcv_table n) on_timestamp :: j).
    rewrite Hj1, Hj, <- app_assoc. split; [done|].
    split; [by apply prefix_cons|]. intros Hres. by rewrite Hok.
  - exists [mkUpsert (ohlcv_table n) on_timestamp]. split; [done|].
    split; [|done]. apply prefix_cons, prefix_nil.
Qed.

(** X5: a refresh issues its upserts in the order raw, 1h, 4h, 1d, at most
    one per table: what it adds to the journal is a prefix of these four
    upserts, all keyed on timestamp, and a refresh that returns has issued
    all four. *)
Theorem refresh_upserts_in_order (w : World Store) :
  ∃ j,
    journal (update_ohlcv_data w).2 = (journal w ++ j)%list
    ∧ j `prefix_of` interval_upserts ["raw"; "1h"; "4h"; "1d"]
    ∧ ((update_ohlcv_data w).1 = Ok tt →
       j = interval_upserts ["raw"; "1h"; "4h"; "1d"]).
Proof.
  assert (∃ j, journal w = (journal w ++ j)%list
               ∧ j `prefix_of` interval_upserts ["raw"; "1h"; "4h"; "1d"])
    as Hnone by (exists []; rewrite app_nil_r; split; [done|apply prefix_nil]).
  unfold update_ohlcv_data. unfold_monad.
  destruct (get_current_ohlcv _ _ _) as [[rows meta]|e]; simpl.
  2:{ destruct Hnone as (j & ? & ?). by exists j. }
  destruct (first_row rows) as [r0|e]; simpl.
  2:{ destruct Hnone as (j & ? & ?). by exists j. }
  destruct (repository_update (ohlcv_table "raw") (from_records rows)
              on_timestamp w) as [[[]|e] w1] eqn:Hraw.
  - assert (journal w1
            = (journal w ++ [mkUpsert (ohlcv_table "raw") on_timestamp])%list)
      as Hj1.
    { unfold repository_update in Hraw.
      destruct (ohlcv_update _ _ _ _); by simplify_eq. }
    destruct (interval_loop_journal ["1h"; "4h"; "1d"] (from_records rows)
                (fromtimestamp (timestamp r0 `div` 1000)) w1)
      as (j & Hj & Hpre & Hok).
    exists (mkUpsert (ohlcv_table "raw") on_timestamp :: j).
    simpl in Hj, Hok |- *. rewrite Hj, Hj1, <- app_assoc. split; [done|].
    split; [by apply prefix_cons|]. intros Hres. by rewrite Hok.
  - exists [mkUpsert (ohlcv_table "raw") on_timestamp]. simpl.
    unfold repository_update in Hraw.
    destruct (ohlcv_update _ _ _ _); simplify_eq. simpl.
    split; [done|]. split; [|done]. apply prefix_cons, prefix_nil.
Qed.

(** X6: an error of the provider is not caught by [seed]: when the
    historical fetch of a resolution raises, [seed] raises the same error at
    that point, the resolutions before it stay seeded, the ones after it are
    not fetched, the indicators are not recomputed, and [process] does not
    start the refresh. *)
Theorem seed_provider_failure (pre post : list string) (interval_name : string)
    (e : Exception) (w0 w : World Store) :
  interval_names = (pre ++ interval_name :: post)%list →
  get_historical_ohlcv DataProvider COINS
    (if decide (interval_name = "raw") then "30m" else interval_name)
    (if decide (interval_name = "raw") then 1000 else 100) = Raise e →
  for_ pre (seed_interval DataProvider) w0 = (Ok tt, w) →
  let w1 := logged INFO ("Seeding " +:+ interval_name +:+ " interval") w in
  seed w0 = (Raise e, w1)
  ∧ process w0 = (Raise e, w1)
  ∧ db w1 = db w
  ∧ journal w1 = journal w.
Proof.
  intros Hnames Hfetch Hpre w1.
  assert (seed_interval DataProvider interval_name w = (Raise e, w1)) as Hstep.
  { unfold seed_interval. unfold_monad. simpl. by rewrite Hfetch. }
  assert (seed w0 = (Raise e, w1)) as Hseed.
  { unfold seed. unfold_monad.
    by rewrite Hnames, for_app, Hpre, for_cons, Hstep. }
  split; [done|]. split; [|done].
  unfold process. unfold_monad. by rewrite Hseed.
Qed.

(** X7: a resolution whose OHLCV table is missing or empty is skipped by
    the indicator update: only the log line is written, the store and the
    journal stay as they were, and the loop goes on with the remaining
    resolutions. *)
Theorem indicators_skip_empty_table (interval_name : string)
    (rest : list string) (table : option DataFrame) (w : World Store) :
  ohlcv_get_all (ohlcv_table interval_name) (db w) = Ok table →
  table = None ∨ table = Some [] →
  let w1 :=
    logged INFO ("Updating indicators for " +:+ interval_name +:+ " interval") w in
  update_indicators_interval interval_name w = (Ok tt, w1)
  ∧ db w1 = db w
  ∧ journal w1 = journal w
  ∧ for_ (interval_name :: rest) update_indicators_interval w
    = for_ rest update_indicators_interval w1.
Proof.
  intros Hget Hempty w1.
  assert (update_indicators_interval interval_name w = (Ok tt, w1)) as Hstep.
  { unfold update_indicators_interval. unfold_monad. simpl. rewrite Hget.
    by destruct Hempty as [-> | ->]. }
  repeat split; [done|]. by rewrite for_cons, Hstep.
Qed.

(** The body of the symbol loop adds one upsert to the journal when the
    symbol has records and the routine returns, and none otherwise. *)
Lemma indicators_for_symbol_journal (indicators_repository : string)
    (df : DataFrame) (symbol_ : string) (w : World Store) :
  journal (indicators_for_symbol indicators_repository df symbol_ w).2
  = (journal w
     ++ if computes df symbol_
        then [mkUpsert indicators_repository on_timestamp_and_symbol]
        else [])%list.
Proof.
  unfold indicators_for_symbol, computes.
  destruct (filter _ df) as [|r rs]; simpl; [by rewrite app_nil_r|].
  unfold try_except, indicators_repository_update. unfold_monad.
  destruct (calculate_ta_indicators _) as [inds|e]; simpl;
    [|by rewrite app_nil_r].
  by destruct (indicators_update _ _ _ _).
Qed.

(** X8: the symbol loop issues exactly one indicator upsert, keyed on
    timestamp and symbol, for every symbol of its list that has records and
    whose indicators the routine returns, in the order of the list, and none
    for a symbol on which the routine raises. *)
Theorem indicator_upserts_per_symbol (indicators_repository : string)
    (df : DataFrame) (symbols : list string) (w : World Store) :
  journal (for_ symbols (indicators_for_symbol indicators_repository df) w).2
  = (journal w
     ++ ((λ _, mkUpsert indicators_repository on_timestamp_and_symbol)
           <$> filter (λ s, computes df s = true) symbols))%list.
Proof.
  revert w. induction symbols as [|s symbols IH]; intros w.
  { by rewrite app_nil_r. }
  rewrite for_cons.
  pose proof (indicators_for_symbol_journal indicators_repository df s w) as Hs.
  destruct (indicators_for_symbol_returns indicators_repository df s w)
    as [w1 Hw1].
  rewrite Hw1 in Hs |- *. simpl in Hs. rewrite IH, Hs, filter_cons.
  destruct (computes df s); case_decide; try done; simpl.
  - by rewrite <- app_assoc.
  - by rewrite app_nil_r.
Qed.

End more_scheduler_facts.

(** ** The series handed to the indicator routine *)

Section series_facts.
Context {F : Float64Ops}.
#[local] Existing Instance row_le_dec.

Lemma string_compare_refl (s : string) : String.compare s s = Eq.
Proof. by apply OrderedTypeEx.String_as_OT.cmp_eq. Qed.

Lemma string_compare_lt_trans (s1 s2 s3 : string) :
  String.compare s1 s2 = Lt → String.compare s2 s3 = Lt →
  String.compare s1 s3 = Lt.
Proof.
  intros H1%OrderedTypeEx.String_as_OT.cmp_lt
         H2%OrderedTypeEx.String_as_OT.cmp_lt.
  apply OrderedTypeEx.String_as_OT.cmp_lt.
  by eapply OrderedTypeEx.String_as_OT.lt_trans.
Qed.

#[local] Instance row_le_total : Total (row_le (F := F)).
Proof.
  intros a b. unfold row_le, row_leb.
  rewrite (String.compare_antisym (symbol b) (symbol a)).
  destruct (String.compare (symbol a) (symbol b)); simpl; [|by left|by right].
  destruct (Z.leb_spec (timestamp a) (timestamp b)); [by left|right].
  apply Z.leb_le. lia.
Qed.

#[local] Instance row_le_trans : Transitive (row_le (F := F)).
Proof.
  intros a b c. unfold row_le, row_leb.
  destruct (String.compare (symbol a) (symbol b)) eqn:Hab; [| |done];
    destruct (String.compare (symbol b) (symbol c)) eqn:Hbc; try done.
  - apply String.compare_eq_iff in Hab, Hbc. rewrite Hab, Hbc.
    rewrite string_compare_refl. rewrite !Z.leb_le. lia.
  - apply String.compare_eq_iff in Hab. by rewrite Hab, Hbc.
  - apply String.compare_eq_iff in Hbc. by rewrite <- Hbc, Hab.
  - by rewrite (string_compare_lt_trans _ _ _ Hab Hbc).
Qed.

Lemma StronglySorted_filter {A} (Rel : relation A) (Q : A → Prop)
    `{!∀ x, Decision (Q x)} (l : list A) :
  StronglySorted Rel l → StronglySorted Rel (filter Q l).
Proof.
  induction 1 as [|x l Hl IH Hall]; [constructor|].
  rewrite filter_cons. case_decide; [|done]. constructor; [done|].
  apply Forall_forall. intros y [_ Hy]%list_elem_of_filter.
  by eapply Forall_forall in Hall.
Qed.

(** Records of one symbol that are sorted by (symbol, timestamp) are sorted
    by timestamp. *)
Lemma sorted_series_by_timestamp (symbol_ : string) (l : DataFrame) :
  Forall (λ r, symbol r = symbol_) l →
  StronglySorted row_le l →
  StronglySorted (λ a b, timestamp a ≤ timestamp b) l.
Proof.
  intros Hsym Hsorted.
  induction Hsorted as [|x l Hl IH Hall]; [constructor|].
  apply Forall_cons_1 in Hsym as [Hx Hsym]. constructor; [by apply IH|].
  apply Forall_forall. intros y Hy.
  eapply Forall_forall in Hall; [|done]. eapply Forall_forall in Hsym; [|done].
  unfold row_le, row_leb in Hall. simpl in Hsym.
  rewrite Hx, Hsym, string_compare_refl in Hall. by apply Z.leb_le.
Qed.

(** X9: the frame is sorted without losing or adding a record, and the
    series handed to the indicator routine for a symbol holds the records
    of that symbol, all of them and no other, in ascending order of
    timestamp. *)
Theorem symbol_series_sorted (df : DataFrame) (symbol_ : string) :
  let series := filter (λ r, symbol r = symbol_) (sort_by_symbol_timestamp df) in
  sort_by_symbol_timestamp df ≡ₚ df
  ∧ series ≡ₚ filter (λ r, symbol r = symbol_) df
  ∧ Forall (λ r, symbol r = symbol_) series
  ∧ StronglySorted (λ a b, timestamp a ≤ timestamp b) series.
Proof.
  intros series. unfold series, sort_by_symbol_timestamp.
  assert (Forall (λ r, symbol r = symbol_)
            (filter (λ r, symbol r = symbol_) (merge_sort row_le df))) as Hsym
    by (rewrite Forall_forall; by intros r [Hr _]%list_elem_of_filter).
  split; [apply merge_sort_Permutation|].
  split; [by rewrite merge_sort_Permutation|].
  split; [done|].
  apply (sorted_series_by_timestamp symbol_); [done|].
  apply StronglySorted_filter, StronglySorted_merge_sort; apply _.
Qed.

(** X10: the symbol loop visits every symbol of the sorted frame once and
    no other string, and the series of a visited symbol is never empty, so
    the guard on an empty series never skips a symbol. *)
Theorem symbols_visited_once (df : DataFrame) :
  let sorted := sort_by_symbol_timestamp df in
  NoDup (unique (symbol <$> sorted))
  ∧ (∀ s, s ∈ unique (symbol <$> sorted) ↔ ∃ r, r ∈ df ∧ symbol r = s)
  ∧ (∀ s, s ∈ unique (symbol <$> sorted) →
          filter (λ r, symbol r = s) sorted ≠ []).
Proof.
  intros sorted. unfold unique.
  assert (∀ s, s ∈ remove_dups (symbol <$> sorted)
               ↔ ∃ r, r ∈ sorted ∧ symbol r = s) as Hin.
  { intros s. rewrite elem_of_remove_dups, list_elem_of_fmap.
    split; [intros (r & -> & Hr)|intros (r & Hr & <-)]; by exists r. }
  split; [apply NoDup_remove_dups|]. split.
  - intros s. rewrite Hin. unfold sorted, sort_by_symbol_timestamp.
    split; intros (r & Hr & Hs); exists r; split; try done.
    + by rewrite merge_sort_Permutation in Hr.
    + by rewrite merge_sort_Permutation.
  - intros s (r & Hr & Hs)%Hin Hnil.
    assert (r ∈ filter (λ r0, symbol r0 = s) sorted) as Hf
      by by apply list_elem_of_filter.
    rewrite Hnil in Hf. by apply not_elem_of_nil in Hf.
Qed.

End series_facts.

(** ** More on the harness *)

Section more_harness_facts.
Import Studio.
Context {G : GraphLib}.

(** X12: the harness reads the registry at the four slugs of its list only:
    two registries that agree on them give the same result, whatever else
    is registered. *)
Theorem test_chat_reads_four_slugs (registry1 registry2 : gmap string PluginClass) :
  (∀ n, n ∈ plugin_names → registry1 !! n = registry2 !! n) →
  test_chat registry1 = test_chat registry2.
Proof.
  intros Hagree. unfold test_chat.
  assert (∀ names, (∀ n, n ∈ names → registry1 !! n = registry2 !! n) →
            instantiate_plugins registry1 names
            = instantiate_plugins registry2 names) as Heq.
  { induction names as [|n names IH]; intros Hnames; [done|]. simpl.
    rewrite (Hnames n) by by left.
    rewrite IH; [done|]. intros m Hm. apply Hnames. by right. }
  by rewrite (Heq plugin_names Hagree).
Qed.

End more_harness_facts.

(** ** More runs of the model *)

Section more_runs.
Import SpecRepository.
#[local] Existing Instance spec_repositories.
#[local] Existing Instance Sample.utc_calendar.
#[local] Existing Instance Sample.indicators.

(** A second observation in the hour of the bucket of the example: the
    interval update raises and the bucket stays as it was; the refresh that
    fetched the observation raises after its upsert into the raw table. *)
Lemma interval_bucket_merge_run :
  update_interval_data (R := spec_repositories) (C := Sample.utc_calendar)
    "ohlcv_1h" "1h" [Sample.observation] 1730629800 Sample.bucket_world
  = (Raise (TypeError expr_in_constructor_message), Sample.bucket_world)
  ∧ (Sample.refresh_with Sample.feed_one Sample.bucket_world).1
    = Raise (TypeError expr_in_constructor_message)
  ∧ journal (Sample.refresh_with Sample.feed_one Sample.bucket_world).2
    = [mkUpsert "ohlcv_raw" on_timestamp]
  ∧ ohlcv_tables (db (Sample.refresh_with Sample.feed_one Sample.bucket_world).2)
      !! "ohlcv_1h"
    = Some [Sample.bucket].
Proof.
  destruct (interval_bucket_merge (R := spec_repositories)
              (C := Sample.utc_calendar) "ohlcv_1h" "1h"
              [Sample.observation] [Sample.bucket] 1730629800
              Sample.bucket_world eq_refl) as (e & _ & Hupdate & He); [done|].
  rewrite (He eq_refl) in Hupdate.
  split; [exact Hupdate|]. repeat split; vm_compute; reflexivity.
Defined.

(** The historical fetch of the 4h resolution fails: raw and 1h are seeded,
    nothing else is written. *)
Lemma seed_provider_failure_run :
  (Sample.seed_with (Sample.feed_broken "4h") Sample.empty_world).1
  = Raise (External "HTTP 429")
  ∧ (Sample.process_with (Sample.feed_broken "4h") Sample.empty_world).1
    = Raise (External "HTTP 429")
  ∧ journal (Sample.process_with (Sample.feed_broken "4h") Sample.empty_world).2
    = [mkUpsert "ohlcv_raw" on_timestamp; mkUpsert "ohlcv_1h" on_timestamp].
Proof.
  destruct (seed_provider_failure (P := Sample.feed_broken "4h")
              (R := spec_repositories) (C := Sample.utc_calendar)
              ["raw"; "1h"] ["1d"] "4h" (External "HTTP 429")
              Sample.empty_world
              (for_ ["raw"; "1h"]
                 (seed_interval (P := Sample.feed_broken "4h")
                    (R := spec_repositories)
                    (DataProvider (P := Sample.feed_broken "4h")))
                 Sample.empty_world).2
              eq_refl eq_refl eq_refl) as (Hseed & Hprocess & _ & _).
  unfold Sample.seed_with, Sample.process_with. rewrite Hseed, Hprocess.
  repeat split; vm_compute; reflexivity.
Defined.

(** On an empty store the indicator update writes nothing. *)
Lemma indicators_skip_empty_table_run :
  (update_indicators_data (R := spec_repositories) Sample.empty_world).1 = Ok tt
  ∧ journal (update_indicators_data (R := spec_repositories) Sample.empty_world).2
    = []
  ∧ db (update_indicators_data (R := spec_repositories) Sample.empty_world).2
    = Sample.empty_store.
Proof.
  destruct (indicators_skip_empty_table (R := spec_repositories) "raw"
              ["1h"; "4h"; "1d"] None Sample.empty_world eq_refl
              (or_introl eq_refl)) as (_ & _ & _ & Hloop).
  unfold update_indicators_data.
  change interval_names with ["raw"; "1h"; "4h"; "1d"]. rewrite Hloop.
  repeat split; vm_compute; reflexivity.
Defined.

(** Registering the community plugin does not change the harness. *)
Lemma test_chat_reads_four_slugs_run :
  Studio.test_chat (G := Sample.slug_plugins) Sample.registry_plugins
  = Studio.test_chat (G := Sample.slug_plugins)
      (delete "solana-bonk-educator" Sample.registry_plugins).
Proof.
  apply (test_chat_reads_four_slugs (G := Sample.slug_plugins)).
  intros n Hn. symmetry. apply lookup_delete_ne. intros <-.
  revert Hn.
  refine (bool_decide_unpack
            (¬ "solana-bonk-educator" ∈ Studio.plugin_names) _).
  vm_compute. exact I.
Defined.

End more_runs.
